(** * solana-validator-ha: configuration, hook chains and notification fan-out

    A shallow embedding of the Go packages [internal/config] and
    [internal/notify] of the validator high-availability controller, with
    the properties of the failover specification that concern them.

    Conventions of the embedding.
    - A Go [error] is an [option string]: [None] is [nil], [Some msg] is a
      non-nil error carrying the text built by [fmt.Errorf].
    - Go [int] and [time.Duration] (an [int64] count of nanoseconds) are
      [Z]; no arithmetic that could overflow is performed on them here.
    - A Go [map[string]V] is a [gmap string V].  A [range] statement over a
      map visits the entries in an unspecified order: every function that
      ranges over a map takes the visiting order as an explicit list, which
      is some permutation of the map's entries.
    - External effects (spawning a process, writing a log record, sending a
      notification) are recorded in a trace that is threaded through the
      stateful functions. *)

From Stdlib Require Import ZArith Lia String Ascii.
From stdpp Require Import gmap strings list fin_maps sorting pretty.

Local Open Scope Z_scope.

(** ** Go strings: the built-in ordering and [sort.Strings] *)

Module gostring.

(** [a < b] on Go strings compares byte by byte; [String.compare] does so
    over the byte values of the characters. *)
Definition lt (a b : string) : Prop := String.compare a b = Lt.
Definition le (a b : string) : Prop := String.compare a b ≠ Gt.

Global Instance lt_dec a b : Decision (lt a b).
Proof. unfold lt. solve_decision. Defined.

Global Instance le_dec a b : Decision (le a b).
Proof. unfold le. solve_decision. Defined.

(** [sort.Strings(x)]: sorts the slice in increasing order.  The library
    routine is a pattern-defeating quicksort; as the order is total and
    equal strings are indistinguishable, its result is the unique
    increasing arrangement of the slice, computed here by merging. *)
Definition sort_Strings (x : list string) : list string := merge_sort le x.

End gostring.

(** ** Package config *)

Module config.

(** A Go [error]: [None] is [nil]. *)
Definition error : Type := option string.

(** Early return on a non-nil error, as in [if err != nil { return err }]:
    [e ;;; k] is the error of [e] if there is one, and continues with [k]
    otherwise. *)
Notation "e ;;; k" :=
  (match e with Some msg => Some msg | None => k end)
  (at level 100, k at level 200, right associativity, only parsing).

(** [if cond { return fmt.Errorf(msg) }] *)
Definition fail_if (cond : bool) (msg : string) : error :=
  if cond then Some msg else None.

(** *** peers.go *)

(** [type Peer struct { IP string; Name string }] *)
Module Peer.
Record t : Type := mk { IP : string; Name : string }.
End Peer.

(** [type Peers map[string]Peer] *)
Abbreviation Peers := (gmap string Peer.t).

(** A possible order in which [for name, peer := range p] visits [p]. *)
Definition ranges (p : Peers) (visit : list (string * Peer.t)) : Prop :=
  visit ≡ₚ map_to_list p.

(** [func (p *Peers) Add(peer Peer)] *)
Definition Add (peer : Peer.t) (p : Peers) : Peers :=
  <[Peer.Name peer := peer]> p.

(** [func (p *Peers) HasIP(ip string) bool] *)
Fixpoint HasIP (visit : list (string * Peer.t)) (ip : string) : bool :=
  match visit with
  | [] => false
  | (_, peer) :: rest =>
      if decide (Peer.IP peer = ip) then true else HasIP rest ip
  end.

(** [func (p *Peers) GetIPs() []string]: one [append] per visited entry. *)
Definition GetIPs (visit : list (string * Peer.t)) : list string :=
  foldl (λ ips e, ips ++ [Peer.IP e.2]) [] visit.

(** The loop [for ipIndex, ip := range ips { rankedIPs[ip] = ipIndex + 1 }],
    started at index [ipIndex]. *)
Fixpoint rank_loop (ipIndex : Z) (ips : list string)
    (rankedIPs : gmap string Z) : gmap string Z :=
  match ips with
  | [] => rankedIPs
  | ip :: rest => rank_loop (ipIndex + 1) rest (<[ip := ipIndex + 1]> rankedIPs)
  end.

(** [func (p *Peers) GetRankedIPs() (rankedIPs map[string]int)] *)
Definition GetRankedIPs (visit : list (string * Peer.t)) : gmap string Z :=
  let rankedIPs := ∅ in
  let ips := GetIPs visit in
  let ips := gostring.sort_Strings ips in
  rank_loop 0 ips rankedIPs.

(** The peers of [p] carry pairwise distinct IP strings. *)
Definition distinct_IPs (p : Peers) : Prop :=
  ∀ n1 n2 p1 p2, p !! n1 = Some p1 → p !! n2 = Some p2 →
    Peer.IP p1 = Peer.IP p2 → n1 = n2.

(** [ip] is the address of some configured peer. *)
Definition configured (p : Peers) (ip : string) : Prop :=
  ∃ name peer, p !! name = Some peer ∧ Peer.IP peer = ip.

(** *** failover.go: hooks *)

(** [type Hook struct { Name, Command string; Args []string; MustSucceed bool }] *)
Module Hook.
Record t : Type := mk {
  Name : string;
  Command : string;
  Args : list string;
  MustSucceed : bool
}.
End Hook.

(** [type Hooks struct { Pre []Hook; Post []Hook }] *)
Module Hooks.
Record t : Type := mk { Pre : list Hook.t; Post : list Hook.t }.
End Hooks.

(** A value of Go's [any], as far as the logger arguments use it. *)
Inductive any : Type :=
  | AString (s : string)
  | AStrings (l : list string)
  | ABool (b : bool).

(** [type HookRunOptions struct { HookType string; DryRun bool; LoggerArgs []any }] *)
Module HookRunOptions.
Record t : Type := mk { HookType : string; DryRun : bool; LoggerArgs : list any }.
End HookRunOptions.

(** [type HooksRunOptions struct { DryRun bool; LoggerArgs []any }] *)
Module HooksRunOptions.
Record t : Type := mk { DryRun : bool; LoggerArgs : list any }.
End HooksRunOptions.

(** Modelled from the spec: [command.RunOptions] is declared in
    [internal/command], which is not among the sources; the fields are
    those of the Command Runner contract
    [Run({name, command, args, env, dryRun, streamOutput, loggerFields})]. *)
Module RunOptions.
Record t : Type := mk {
  Name : string;
  Command : string;
  Args : list string;
  Env : gmap string string;
  DryRun : bool;
  LoggerArgs : list any;
  StreamOutput : bool
}.
End RunOptions.

(** [func (h *Hook) Validate(allowMustSucceed bool) error] *)
Definition Hook_Validate (h : Hook.t) (allowMustSucceed : bool) : error :=
  fail_if (bool_decide (Hook.Name h = "")) "must have a name" ;;;
  fail_if (bool_decide (Hook.Command h = "")) "must have a command" ;;;
  fail_if (negb allowMustSucceed && Hook.MustSucceed h)
          "hook must_succeed not allowed for post hooks" ;;;
  None.

(** The loop [for i, hook := range hooks] of [Hooks.Validate], from index
    [i] on; [kind] is ["pre"] or ["post"]. *)
Fixpoint Hooks_Validate_loop (kind : string) (allowMustSucceed : bool)
    (i : nat) (hooks : list Hook.t) : error :=
  match hooks with
  | [] => None
  | hook :: rest =>
      match Hook_Validate hook allowMustSucceed with
      | Some err => Some ("hooks." +:+ kind +:+ "[" +:+ pretty i +:+ "]: " +:+ err)
      | None => Hooks_Validate_loop kind allowMustSucceed (S i) rest
      end
  end.

(** [func (h *Hooks) Validate() error] *)
Definition Hooks_Validate (h : Hooks.t) : error :=
  Hooks_Validate_loop "pre" true 0 (Hooks.Pre h) ;;;
  Hooks_Validate_loop "post" false 0 (Hooks.Post h) ;;;
  None.

(** Effects of running hooks: log records and calls of the command runner
    (with the error the runner returned). *)
Inductive Effect : Type :=
  | LogInfo (msg : string) (args : list any)
  | LogError (msg : string) (args : list any)
  | CommandRun (opts : RunOptions.t) (result : error).

Section hooks_run.
(** The outside world the command runner acts on, the runner itself
    ([command.Run], package [internal/command]) and [strcase.ToSnake]. *)
Variable World : Type.
Variable command_Run : RunOptions.t → World → error * World.
Variable ToSnake : string → string.

(** A computation that yields a value, a new world and the effects it
    performed, in order. *)
Definition M (A : Type) : Type := World → A * World * list Effect.

Definition ret {A} (a : A) : M A := λ w, (a, w, []).

Definition bind {A B} (m : M A) (k : A → M B) : M B := λ w,
  let '(a, w1, t1) := m w in
  let '(b, w2, t2) := k a w1 in
  (b, w2, t1 ++ t2).

Definition emit (e : Effect) : M unit := λ w, (tt, w, [e]).

(** Calling [command.Run(opts)]. *)
Definition call_command_Run (opts : RunOptions.t) : M error := λ w,
  let '(err, w') := command_Run opts w in (err, w', [CommandRun opts err]).

(** The [loggerArgs] slice built at the start of [Hook.Run]. *)
Definition Hook_loggerArgs (h : Hook.t) (opts : HookRunOptions.t) : list any :=
  [ AString "hook_name"; AString (ToSnake (Hook.Name h));
    AString "command"; AString (Hook.Command h);
    AString "args"; AStrings (Hook.Args h);
    AString "dry_run"; ABool (HookRunOptions.DryRun opts) ]
  ++ HookRunOptions.LoggerArgs opts.

(** The [command.RunOptions] literal passed by [Hook.Run]. *)
Definition Hook_RunOptions (h : Hook.t) (opts : HookRunOptions.t) : RunOptions.t :=
  {| RunOptions.Name := HookRunOptions.HookType opts +:+ "-hook " +:+ Hook.Name h;
     RunOptions.Command := Hook.Command h;
     RunOptions.Args := Hook.Args h;
     RunOptions.Env := ∅;
     RunOptions.DryRun := HookRunOptions.DryRun opts;
     RunOptions.LoggerArgs := Hook_loggerArgs h opts;
     RunOptions.StreamOutput := true |}.

(** [func (h *Hook) Run(opts HookRunOptions) error] *)
Definition Hook_Run (h : Hook.t) (opts : HookRunOptions.t) : M error :=
  let loggerArgs := Hook_loggerArgs h opts in
  if HookRunOptions.DryRun opts then ret None
  else
    bind (emit (LogInfo "running hook" loggerArgs)) (λ _,
    call_command_Run (Hook_RunOptions h opts)).

(** The [loggerArgs] slice of [RunPre] / [RunPost]. *)
Definition Hooks_loggerArgs (kind : string) (opts : HooksRunOptions.t) : list any :=
  [AString "hook_type"; AString kind] ++ HooksRunOptions.LoggerArgs opts.

(** The [HookRunOptions] literal that [RunPre] / [RunPost] pass on. *)
Definition Hooks_HookRunOptions (kind : string) (opts : HooksRunOptions.t)
    : HookRunOptions.t :=
  {| HookRunOptions.HookType := kind;
     HookRunOptions.DryRun := HooksRunOptions.DryRun opts;
     HookRunOptions.LoggerArgs := Hooks_loggerArgs kind opts |}.

(** What a chain of the given kind (["pre"] or ["post"]) passes to the
    command runner for [hook]. *)
Definition invocation (kind : string) (opts : HooksRunOptions.t)
    (hook : Hook.t) : RunOptions.t :=
  Hook_RunOptions hook (Hooks_HookRunOptions kind opts).

(** The loop [for _, hook := range h.Pre] of [RunPre]. *)
Fixpoint RunPre_loop (opts : HooksRunOptions.t) (hooks : list Hook.t) : M error :=
  match hooks with
  | [] => ret None
  | hook :: rest =>
      bind (Hook_Run hook (Hooks_HookRunOptions "pre" opts)) (λ err,
      match err with
      | Some e =>
          if Hook.MustSucceed hook then ret (Some e)
          else
            bind (emit (LogError "hook failed" (Hooks_loggerArgs "pre" opts))) (λ _,
            RunPre_loop opts rest)
      | None => RunPre_loop opts rest
      end)
  end.

(** [func (h *Hooks) RunPre(opts HooksRunOptions) error] *)
Definition Hooks_RunPre (h : Hooks.t) (opts : HooksRunOptions.t) : M error :=
  RunPre_loop opts (Hooks.Pre h).

(** The loop [for _, hook := range h.Post] of [RunPost]. *)
Fixpoint RunPost_loop (opts : HooksRunOptions.t) (hooks : list Hook.t) : M unit :=
  match hooks with
  | [] => ret tt
  | hook :: rest =>
      bind (Hook_Run hook (Hooks_HookRunOptions "post" opts)) (λ err,
      match err with
      | Some _ =>
          bind (emit (LogError "hook failed" (Hooks_loggerArgs "post" opts))) (λ _,
          RunPost_loop opts rest)
      | None => RunPost_loop opts rest
      end)
  end.

(** [func (h *Hooks) RunPost(opts HooksRunOptions)]: no result. *)
Definition Hooks_RunPost (h : Hooks.t) (opts : HooksRunOptions.t) : M unit :=
  RunPost_loop opts (Hooks.Post h).

End hooks_run.

Arguments ret {World A} a.
Arguments bind {World A B} m k.

(** The calls of the command runner among some effects, in order. *)
Definition command_runs (t : list Effect) : list (RunOptions.t * error) :=
  omap (λ e, match e with CommandRun o r => Some (o, r) | _ => None end) t.

(** A failure that a chain tolerates: the hook failed and does not have to
    succeed. *)
Definition tolerated (ho : Hook.t * error) : bool :=
  match ho.2 with
  | Some _ => negb (Hook.MustSucceed ho.1)
  | None => false
  end.

(** The error records among some effects, in order. *)
Definition logged_errors (t : list Effect) : list (string * list any) :=
  omap (λ e, match e with LogError m a => Some (m, a) | _ => None end) t.

(** *** failover.go: the failover section *)

(** Modelled from the spec: [Role] is declared in role.go, which is not
    among the sources ("Tag {active, passive} plus its configured command,
    args, env and pre/post Hooks"); failover.go uses [Name], [Command] and
    [Hooks]. *)
Module Role.
Record t : Type := mk {
  Name : string;
  Command : string;
  Args : list string;
  Env : gmap string string;
  Hooks : Hooks.t
}.
End Role.

(** [time.Second], in nanoseconds. *)
Definition Second : Z := 1000000000.

(** [type Failover struct { ... }] *)
Module Failover.
Record t : Type := mk {
  DryRun : bool;
  PollIntervalDuration : Z;
  LeaderlessThresholdDuration : Z;
  TakeoverJitterSeconds : Z;
  Active : Role.t;
  Passive : Role.t;
  Peers : gmap string Peer.t
}.
End Failover.

(** One of the four hook loops of [Failover.Validate],
    [for _, hook := range hooks { ... }]; [what] is the configuration
    path that the messages name, e.g. ["failover.active.hooks.pre"]. *)
Fixpoint Validate_hooks (what : string) (hooks : list Hook.t) : error :=
  match hooks with
  | [] => None
  | hook :: rest =>
      fail_if (bool_decide (Hook.Name hook = "")) (what +:+ " must have a name") ;;;
      fail_if (bool_decide (Hook.Command hook = "")) (what +:+ " must have a command") ;;;
      Validate_hooks what rest
  end.

Section validate.
(** [net.ParseIP(s) != nil && net.ParseIP(s).To4() != nil], from Go's
    standard library. *)
Variable parses_as_IPv4 : string → bool.

(** The loop [for name, peer := range f.Peers] of [Failover.Validate];
    [ips] is the set of addresses seen so far. *)
Fixpoint Validate_peers (visit : list (string * Peer.t))
    (ips : gmap string bool) : error :=
  match visit with
  | [] => None
  | (name, peer) :: rest =>
      fail_if (negb (parses_as_IPv4 (Peer.IP peer)))
        ("failover.peers - invalid IP address " +:+ Peer.IP peer
           +:+ " for peer " +:+ name) ;;;
      fail_if (default false (ips !! Peer.IP peer))
        ("failover.peers - duplicate IP address " +:+ Peer.IP peer
           +:+ " found for peer " +:+ name) ;;;
      Validate_peers rest (<[Peer.IP peer := true]> ips)
  end.

(** [func (f *Failover) Validate() error]; [visit] is the order in which
    the final loop ranges over [f.Peers]. *)
Definition Failover_Validate (f : Failover.t)
    (visit : list (string * Peer.t)) : error :=
  fail_if (bool_decide (Failover.PollIntervalDuration f = 0))
    "failover.poll_interval_duration must be greater than zero" ;;;
  fail_if (bool_decide (Failover.LeaderlessThresholdDuration f ≤ 0))
    "failover.leaderless_threshold_duration must be positive and non-zero" ;;;
  fail_if (bool_decide (Role.Command (Failover.Active f) = ""))
    "failover.active.command must be defined" ;;;
  Validate_hooks "failover.active.hooks.pre"
    (Hooks.Pre (Role.Hooks (Failover.Active f))) ;;;
  Validate_hooks "failover.active.hooks.post"
    (Hooks.Post (Role.Hooks (Failover.Active f))) ;;;
  fail_if (bool_decide (Role.Command (Failover.Passive f) = ""))
    "failover.passive.command must be defined" ;;;
  Validate_hooks "failover.passive.hooks.pre"
    (Hooks.Pre (Role.Hooks (Failover.Passive f))) ;;;
  Validate_hooks "failover.passive.hooks.post"
    (Hooks.Post (Role.Hooks (Failover.Passive f))) ;;;
  fail_if (bool_decide (size (Failover.Peers f) = 0%nat))
    "failover.peers - at least one peer must be defined" ;;;
  Validate_peers visit ∅.

End validate.

(** [r.Name = name] *)
Definition Role_set_Name (r : Role.t) (name : string) : Role.t :=
  {| Role.Name := name; Role.Command := Role.Command r; Role.Args := Role.Args r;
     Role.Env := Role.Env r; Role.Hooks := Role.Hooks r |}.

(** [func (f *Failover) SetDefaults()] *)
Definition Failover_SetDefaults (f : Failover.t) : Failover.t :=
  {| Failover.DryRun := Failover.DryRun f;
     Failover.PollIntervalDuration :=
       if bool_decide (Failover.PollIntervalDuration f = 0)
       then 5 * Second else Failover.PollIntervalDuration f;
     Failover.LeaderlessThresholdDuration :=
       if bool_decide (Failover.LeaderlessThresholdDuration f = 0)
       then 15 * Second else Failover.LeaderlessThresholdDuration f;
     Failover.TakeoverJitterSeconds :=
       if bool_decide (Failover.TakeoverJitterSeconds f = 0)
       then 3 else Failover.TakeoverJitterSeconds f;
     Failover.Active := Role_set_Name (Failover.Active f) "active";
     Failover.Passive := Role_set_Name (Failover.Passive f) "passive";
     Failover.Peers := Failover.Peers f |}.

(** [f.TakeoverJitterSeconds = v] *)
Definition Failover_set_TakeoverJitterSeconds (f : Failover.t) (v : Z)
    : Failover.t :=
  {| Failover.DryRun := Failover.DryRun f;
     Failover.PollIntervalDuration := Failover.PollIntervalDuration f;
     Failover.LeaderlessThresholdDuration := Failover.LeaderlessThresholdDuration f;
     Failover.TakeoverJitterSeconds := v;
     Failover.Active := Failover.Active f;
     Failover.Passive := Failover.Passive f;
     Failover.Peers := Failover.Peers f |}.

(** [f.PollIntervalDuration = d] *)
Definition Failover_set_PollIntervalDuration (f : Failover.t) (d : Z)
    : Failover.t :=
  {| Failover.DryRun := Failover.DryRun f;
     Failover.PollIntervalDuration := d;
     Failover.LeaderlessThresholdDuration := Failover.LeaderlessThresholdDuration f;
     Failover.TakeoverJitterSeconds := Failover.TakeoverJitterSeconds f;
     Failover.Active := Failover.Active f;
     Failover.Passive := Failover.Passive f;
     Failover.Peers := Failover.Peers f |}.

(** *** prometheus.go *)

(** [type Prometheus struct { Port, HealthCheckPort int; StaticLabels map[string]string }] *)
Module Prometheus.
Record t : Type := mk {
  Port : Z;
  HealthCheckPort : Z;
  StaticLabels : gmap string string
}.
End Prometheus.

(** [func (p *Prometheus) Validate() error] *)
Definition Prometheus_Validate (p : Prometheus.t) : error :=
  fail_if (bool_decide (Prometheus.Port p ≤ 0))
    "prometheus.port must be positive and non-zero" ;;;
  fail_if (bool_decide (Prometheus.HealthCheckPort p ≤ 0))
    "prometheus.health_check_port must be positive and non-zero" ;;;
  None.

(** [func (p *Prometheus) SetDefaults()] *)
Definition Prometheus_SetDefaults (p : Prometheus.t) : Prometheus.t :=
  {| Prometheus.Port :=
       if bool_decide (Prometheus.Port p = 0) then 9090 else Prometheus.Port p;
     Prometheus.HealthCheckPort :=
       if bool_decide (Prometheus.HealthCheckPort p = 0)
       then 9091 else Prometheus.HealthCheckPort p;
     Prometheus.StaticLabels := Prometheus.StaticLabels p |}.

(** *** The log section *)

(** [log.Formatter] of the logging library, with its three values. *)
Inductive Formatter : Type := TextFormatter | JSONFormatter | LogfmtFormatter.

(** [var logFormatters = map[string]log.Formatter{ ... }] *)
Definition logFormatters : gmap string Formatter :=
  <["text" := TextFormatter]>
    (<["json" := JSONFormatter]> (<["logfmt" := LogfmtFormatter]> ∅)).

Section log.
(** [log.Level] and [log.ParseLevel] of the logging library: the parsed
    level together with the error, as the library returns them. *)
Variable Level : Type.
Variable ParseLevel : string → Level * error.

(** [type Log struct { Level, Format string; ParsedLevel log.Level;
    ParsedFormatter log.Formatter }]; the struct is declared inside the
    section because of the library's level type. *)
Record Log : Type := mkLog {
  Log_Level : string;
  Log_Format : string;
  Log_ParsedLevel : Level;
  Log_ParsedFormatter : Formatter
}.

(** [func (l *Log) SetDefaults()] *)
Definition Log_SetDefaults (l : Log) : Log :=
  {| Log_Level := if bool_decide (Log_Level l = "") then "info" else Log_Level l;
     Log_Format := if bool_decide (Log_Format l = "") then "text" else Log_Format l;
     Log_ParsedLevel := Log_ParsedLevel l;
     Log_ParsedFormatter := Log_ParsedFormatter l |}.

(** [func (l *Log) Validate() (err error)]: the receiver as the call
    leaves it, and the error.  Both assignments take place before the
    corresponding check; a format that is not in the table stores the
    zero formatter, [log.TextFormatter]. *)
Definition Log_Validate (l : Log) : Log * error :=
  let '(parsed, err) := ParseLevel (Log_Level l) in
  let l1 := {| Log_Level := Log_Level l; Log_Format := Log_Format l;
               Log_ParsedLevel := parsed;
               Log_ParsedFormatter := Log_ParsedFormatter l |} in
  match err with
  | Some _ =>
      (l1, Some ("log.level must be one of debug, info, warn, error, fatal - got: "
                 +:+ Log_Level l))
  | None =>
      let found := logFormatters !! Log_Format l in
      let l2 := {| Log_Level := Log_Level l; Log_Format := Log_Format l;
                   Log_ParsedLevel := parsed;
                   Log_ParsedFormatter := default TextFormatter found |} in
      match found with
      | None =>
          (l2, Some ("log.format must be one of text, json, logfmt - got: "
                     +:+ Log_Format l))
      | Some _ => (l2, None)
      end
  end.

(** [func (l *Log) SetLevelString(logLevel string)]; the flag tells
    whether the invalid level was reported with [log.Error]. *)
Definition Log_SetLevelString (l : Log) (logLevel : string) : Log * bool :=
  match (ParseLevel logLevel).2 with
  | Some _ => (l, true)
  | None =>
      ({| Log_Level := logLevel; Log_Format := Log_Format l;
          Log_ParsedLevel := Log_ParsedLevel l;
          Log_ParsedFormatter := Log_ParsedFormatter l |}, false)
  end.

End log.

Arguments mkLog {Level}.
Arguments Log_Level {Level}.
Arguments Log_Format {Level}.
Arguments Log_ParsedLevel {Level}.
Arguments Log_ParsedFormatter {Level}.
Arguments Log_SetDefaults {Level}.
Arguments Log_Validate {Level}.
Arguments Log_SetLevelString {Level}.

(** *** The notifications section *)

(** [type NotificationEvents struct { ... }] *)
Module NotificationEvents.
Record t : Type := mk {
  Startup : bool;
  Shutdown : bool;
  BecomingActive : bool;
  BecameActive : bool;
  BecomingPassive : bool;
  BecamePassive : bool;
  HealthUnhealthy : bool;
  HealthRecovered : bool;
  Delinquent : bool;
  GossipLost : bool;
  GossipRecovered : bool;
  PeerDiscovered : bool;
  PeerLost : bool
}.
End NotificationEvents.

(** [type DiscordConfig struct { ... }] *)
Module DiscordConfig.
Record t : Type := mk {
  Enabled : bool;
  WebhookURL : string;
  WebhookURLEnv : string;
  Username : string;
  AvatarURL : string
}.
End DiscordConfig.

(** [type TelegramConfig struct { ... }] *)
Module TelegramConfig.
Record t : Type := mk {
  Enabled : bool;
  BotToken : string;
  BotTokenEnv : string;
  ChatID : string;
  ParseMode : string
}.
End TelegramConfig.

(** [type SlackConfig struct { ... }] *)
Module SlackConfig.
Record t : Type := mk {
  Enabled : bool;
  WebhookURL : string;
  WebhookURLEnv : string;
  Channel : string;
  Username : string;
  IconEmoji : string
}.
End SlackConfig.

(** [type PagerDutyConfig struct { ... }] *)
Module PagerDutyConfig.
Record t : Type := mk {
  Enabled : bool;
  RoutingKey : string;
  RoutingKeyEnv : string
}.
End PagerDutyConfig.

(** [type NotificationConfig struct { ... }] *)
Module NotificationConfig.
Record t : Type := mk {
  Enabled : bool;
  Discord : DiscordConfig.t;
  Telegram : TelegramConfig.t;
  Slack : SlackConfig.t;
  PagerDuty : PagerDutyConfig.t;
  Events : NotificationEvents.t
}.
End NotificationConfig.

(** [if s == "" { s = dflt }] *)
Definition default_if_empty (s dflt : string) : string :=
  if bool_decide (s = "") then dflt else s.

(** [func (n *NotificationConfig) SetDefaults()] *)
Definition NotificationConfig_SetDefaults (n : NotificationConfig.t)
    : NotificationConfig.t :=
  let tg := NotificationConfig.Telegram n in
  let dc := NotificationConfig.Discord n in
  let sl := NotificationConfig.Slack n in
  {| NotificationConfig.Enabled := NotificationConfig.Enabled n;
     NotificationConfig.Discord :=
       {| DiscordConfig.Enabled := DiscordConfig.Enabled dc;
          DiscordConfig.WebhookURL := DiscordConfig.WebhookURL dc;
          DiscordConfig.WebhookURLEnv := DiscordConfig.WebhookURLEnv dc;
          DiscordConfig.Username :=
            default_if_empty (DiscordConfig.Username dc) "Solana HA Bot";
          DiscordConfig.AvatarURL := DiscordConfig.AvatarURL dc |};
     NotificationConfig.Telegram :=
       {| TelegramConfig.Enabled := TelegramConfig.Enabled tg;
          TelegramConfig.BotToken := TelegramConfig.BotToken tg;
          TelegramConfig.BotTokenEnv := TelegramConfig.BotTokenEnv tg;
          TelegramConfig.ChatID := TelegramConfig.ChatID tg;
          TelegramConfig.ParseMode :=
            default_if_empty (TelegramConfig.ParseMode tg) "HTML" |};
     NotificationConfig.Slack :=
       {| SlackConfig.Enabled := SlackConfig.Enabled sl;
          SlackConfig.WebhookURL := SlackConfig.WebhookURL sl;
          SlackConfig.WebhookURLEnv := SlackConfig.WebhookURLEnv sl;
          SlackConfig.Channel := SlackConfig.Channel sl;
          SlackConfig.Username :=
            default_if_empty (SlackConfig.Username sl) "Solana HA Bot";
          SlackConfig.IconEmoji :=
            default_if_empty (SlackConfig.IconEmoji sl) ":robot_face:" |};
     NotificationConfig.PagerDuty := NotificationConfig.PagerDuty n;
     NotificationConfig.Events :=
       {| NotificationEvents.Startup := true;
          NotificationEvents.Shutdown := true;
          NotificationEvents.BecomingActive := true;
          NotificationEvents.BecameActive := true;
          NotificationEvents.BecomingPassive := true;
          NotificationEvents.BecamePassive := true;
          NotificationEvents.HealthUnhealthy := true;
          NotificationEvents.HealthRecovered := true;
          NotificationEvents.Delinquent := true;
          NotificationEvents.GossipLost := true;
          NotificationEvents.GossipRecovered := true;
          NotificationEvents.PeerDiscovered := true;
          NotificationEvents.PeerLost := true |} |}.

(** [n.Discord.Enabled { if url == "" && env == "" { return error } }] and
    the like: the check of one service inside [Validate]. *)
Definition when (enabled : bool) (check : error) : error :=
  if enabled then check else None.

(** [func (n *NotificationConfig) Validate() error] *)
Definition NotificationConfig_Validate (n : NotificationConfig.t) : error :=
  let dc := NotificationConfig.Discord n in
  let tg := NotificationConfig.Telegram n in
  let sl := NotificationConfig.Slack n in
  let pd := NotificationConfig.PagerDuty n in
  if negb (NotificationConfig.Enabled n) then None
  else
    when (DiscordConfig.Enabled dc)
      (fail_if (bool_decide (DiscordConfig.WebhookURL dc = "")
                && bool_decide (DiscordConfig.WebhookURLEnv dc = ""))
         "notifications.discord: webhook_url or webhook_url_env is required when enabled") ;;;
    when (TelegramConfig.Enabled tg)
      (fail_if (bool_decide (TelegramConfig.BotToken tg = "")
                && bool_decide (TelegramConfig.BotTokenEnv tg = ""))
         "notifications.telegram: bot_token or bot_token_env is required when enabled" ;;;
       fail_if (bool_decide (TelegramConfig.ChatID tg = ""))
         "notifications.telegram: chat_id is required when enabled" ;;;
       fail_if (bool_decide (TelegramConfig.ParseMode tg ≠ "HTML")
                && bool_decide (TelegramConfig.ParseMode tg ≠ "Markdown")
                && bool_decide (TelegramConfig.ParseMode tg ≠ "MarkdownV2"))
         "notifications.telegram: parse_mode must be HTML, Markdown, or MarkdownV2" ;;;
       None) ;;;
    when (SlackConfig.Enabled sl)
      (fail_if (bool_decide (SlackConfig.WebhookURL sl = "")
                && bool_decide (SlackConfig.WebhookURLEnv sl = ""))
         "notifications.slack: webhook_url or webhook_url_env is required when enabled") ;;;
    when (PagerDutyConfig.Enabled pd)
      (fail_if (bool_decide (PagerDutyConfig.RoutingKey pd = "")
                && bool_decide (PagerDutyConfig.RoutingKeyEnv pd = ""))
         "notifications.pagerduty: routing_key or routing_key_env is required when enabled") ;;;
    None.

(** [n.Discord.WebhookURL = value] and the three other secrets. *)
Definition set_Discord_WebhookURL (n : NotificationConfig.t) (value : string)
    : NotificationConfig.t :=
  let dc := NotificationConfig.Discord n in
  {| NotificationConfig.Enabled := NotificationConfig.Enabled n;
     NotificationConfig.Discord :=
       {| DiscordConfig.Enabled := DiscordConfig.Enabled dc;
          DiscordConfig.WebhookURL := value;
          DiscordConfig.WebhookURLEnv := DiscordConfig.WebhookURLEnv dc;
          DiscordConfig.Username := DiscordConfig.Username dc;
          DiscordConfig.AvatarURL := DiscordConfig.AvatarURL dc |};
     NotificationConfig.Telegram := NotificationConfig.Telegram n;
     NotificationConfig.Slack := NotificationConfig.Slack n;
     NotificationConfig.PagerDuty := NotificationConfig.PagerDuty n;
     NotificationConfig.Events := NotificationConfig.Events n |}.

Definition set_Telegram_BotToken (n : NotificationConfig.t) (value : string)
    : NotificationConfig.t :=
  let tg := NotificationConfig.Telegram n in
  {| NotificationConfig.Enabled := NotificationConfig.Enabled n;
     NotificationConfig.Discord := NotificationConfig.Discord n;
     NotificationConfig.Telegram :=
       {| TelegramConfig.Enabled := TelegramConfig.Enabled tg;
          TelegramConfig.BotToken := value;
          TelegramConfig.BotTokenEnv := TelegramConfig.BotTokenEnv tg;
          TelegramConfig.ChatID := TelegramConfig.ChatID tg;
          TelegramConfig.ParseMode := TelegramConfig.ParseMode tg |};
     NotificationConfig.Slack := NotificationConfig.Slack n;
     NotificationConfig.PagerDuty := NotificationConfig.PagerDuty n;
     NotificationConfig.Events := NotificationConfig.Events n |}.

Definition set_Slack_WebhookURL (n : NotificationConfig.t) (value : string)
    : NotificationConfig.t :=
  let sl := NotificationConfig.Slack n in
  {| NotificationConfig.Enabled := NotificationConfig.Enabled n;
     NotificationConfig.Discord := NotificationConfig.Discord n;
     NotificationConfig.Telegram := NotificationConfig.Telegram n;
     NotificationConfig.Slack :=
       {| SlackConfig.Enabled := SlackConfig.Enabled sl;
          SlackConfig.WebhookURL := value;
          SlackConfig.WebhookURLEnv := SlackConfig.WebhookURLEnv sl;
          SlackConfig.Channel := SlackConfig.Channel sl;
          SlackConfig.Username := SlackConfig.Username sl;
          SlackConfig.IconEmoji := SlackConfig.IconEmoji sl |};
     NotificationConfig.PagerDuty := NotificationConfig.PagerDuty n;
     NotificationConfig.Events := NotificationConfig.Events n |}.

Definition set_PagerDuty_RoutingKey (n : NotificationConfig.t) (value : string)
    : NotificationConfig.t :=
  let pd := NotificationConfig.PagerDuty n in
  {| NotificationConfig.Enabled := NotificationConfig.Enabled n;
     NotificationConfig.Discord := NotificationConfig.Discord n;
     NotificationConfig.Telegram := NotificationConfig.Telegram n;
     NotificationConfig.Slack := NotificationConfig.Slack n;
     NotificationConfig.PagerDuty :=
       {| PagerDutyConfig.Enabled := PagerDutyConfig.Enabled pd;
          PagerDutyConfig.RoutingKey := value;
          PagerDutyConfig.RoutingKeyEnv := PagerDutyConfig.RoutingKeyEnv pd |};
     NotificationConfig.Events := NotificationConfig.Events n |}.

Section secrets.
(** [os.Getenv]: the value of an environment variable, empty when the
    variable is not set. *)
Variable Getenv : string → string.

(** One of the four blocks of [ResolveSecrets]: when the service is
    enabled, its secret empty and the name [env] of a variable given,
    the variable is read; an empty value is an error naming [service],
    any other value is stored with [store].  Yields the configuration as
    the block leaves it, and the error. *)
Definition resolve (n : NotificationConfig.t) (enabled : bool)
    (secret env service : string)
    (store : NotificationConfig.t → string → NotificationConfig.t)
    : NotificationConfig.t * error :=
  if enabled && bool_decide (secret = "") && bool_decide (env ≠ "") then
    let value := Getenv env in
    if bool_decide (value = "") then
      (n, Some ("notifications." +:+ service +:+ ": environment variable "
                +:+ env +:+ " is not set"))
    else (store n value, None)
  else (n, None).

(** Sequencing of two blocks: the second runs on what the first left,
    unless the first returned an error. *)
Definition and_then (r : NotificationConfig.t * error)
    (k : NotificationConfig.t → NotificationConfig.t * error)
    : NotificationConfig.t * error :=
  match r.2 with
  | Some e => (r.1, Some e)
  | None => k r.1
  end.

(** [func (n *NotificationConfig) ResolveSecrets() error]: the receiver
    as the call leaves it, and the error. *)
Definition NotificationConfig_ResolveSecrets (n : NotificationConfig.t)
    : NotificationConfig.t * error :=
  if negb (NotificationConfig.Enabled n) then (n, None)
  else
    and_then
      (let dc := NotificationConfig.Discord n in
       resolve n (DiscordConfig.Enabled dc) (DiscordConfig.WebhookURL dc)
         (DiscordConfig.WebhookURLEnv dc) "discord" set_Discord_WebhookURL)
      (λ n,
    and_then
      (let tg := NotificationConfig.Telegram n in
       resolve n (TelegramConfig.Enabled tg) (TelegramConfig.BotToken tg)
         (TelegramConfig.BotTokenEnv tg) "telegram" set_Telegram_BotToken)
      (λ n,
    and_then
      (let sl := NotificationConfig.Slack n in
       resolve n (SlackConfig.Enabled sl) (SlackConfig.WebhookURL sl)
         (SlackConfig.WebhookURLEnv sl) "slack" set_Slack_WebhookURL)
      (λ n,
       let pd := NotificationConfig.PagerDuty n in
       resolve n (PagerDutyConfig.Enabled pd) (PagerDutyConfig.RoutingKey pd)
         (PagerDutyConfig.RoutingKeyEnv pd) "pagerduty" set_PagerDuty_RoutingKey))).

End secrets.

(** [func (n *NotificationConfig) HasAnyEnabled() bool] *)
Definition NotificationConfig_HasAnyEnabled (n : NotificationConfig.t) : bool :=
  NotificationConfig.Enabled n
  && (DiscordConfig.Enabled (NotificationConfig.Discord n)
      || TelegramConfig.Enabled (NotificationConfig.Telegram n)
      || SlackConfig.Enabled (NotificationConfig.Slack n)
      || PagerDutyConfig.Enabled (NotificationConfig.PagerDuty n)).

(** *** What the validations accept *)

(** A hook with a name and a command. *)
Definition hook_named (hook : Hook.t) : Prop :=
  Hook.Name hook ≠ ""%string ∧ Hook.Command hook ≠ ""%string.

(** A role with a command whose hooks all have a name and a command. *)
Definition role_ok (r : Role.t) : Prop :=
  Role.Command r ≠ ""%string ∧
  Forall hook_named (Hooks.Pre (Role.Hooks r)) ∧
  Forall hook_named (Hooks.Post (Role.Hooks r)).

(** At least one peer, every address an IPv4 address, no address twice. *)
Definition peers_ok (parses_as_IPv4 : string → bool) (p : Peers) : Prop :=
  size p ≠ 0%nat ∧
  (∀ name peer, p !! name = Some peer → parses_as_IPv4 (Peer.IP peer) = true) ∧
  distinct_IPs p.

(** An enabled Discord section names its webhook, literally or by an
    environment variable; likewise for the other services.  Telegram
    also needs a chat and one of the three parse modes. *)
Definition discord_ok (dc : DiscordConfig.t) : Prop :=
  DiscordConfig.Enabled dc = true →
  DiscordConfig.WebhookURL dc ≠ ""%string ∨ DiscordConfig.WebhookURLEnv dc ≠ ""%string.

Definition telegram_ok (tg : TelegramConfig.t) : Prop :=
  TelegramConfig.Enabled tg = true →
  (TelegramConfig.BotToken tg ≠ ""%string ∨ TelegramConfig.BotTokenEnv tg ≠ ""%string) ∧
  TelegramConfig.ChatID tg ≠ ""%string ∧
  TelegramConfig.ParseMode tg ∈ ["HTML"; "Markdown"; "MarkdownV2"]%string.

Definition slack_ok (sl : SlackConfig.t) : Prop :=
  SlackConfig.Enabled sl = true →
  SlackConfig.WebhookURL sl ≠ ""%string ∨ SlackConfig.WebhookURLEnv sl ≠ ""%string.

Definition pagerduty_ok (pd : PagerDutyConfig.t) : Prop :=
  PagerDutyConfig.Enabled pd = true →
  PagerDutyConfig.RoutingKey pd ≠ ""%string ∨ PagerDutyConfig.RoutingKeyEnv pd ≠ ""%string.

(** A service of [ResolveSecrets] that has to read its secret from the
    environment: enabled, no literal secret, a variable named. *)
Definition reads_env (enabled : bool) (secret env : string) : Prop :=
  enabled = true ∧ secret = ""%string ∧ env ≠ ""%string.

End config.

(** ** Package notify: the notification manager *)

Module notify.

(** [type EventType string] *)
Definition EventType : Type := string.

Definition EventStartup : EventType := "startup".
Definition EventShutdown : EventType := "shutdown".
Definition EventBecomingActive : EventType := "becoming_active".
Definition EventBecameActive : EventType := "became_active".
Definition EventBecomingPassive : EventType := "becoming_passive".
Definition EventBecamePassive : EventType := "became_passive".
Definition EventHealthUnhealthy : EventType := "health_unhealthy".
Definition EventHealthRecovered : EventType := "health_recovered".
Definition EventDelinquent : EventType := "delinquent".
Definition EventGossipLost : EventType := "gossip_lost".
Definition EventGossipRecovered : EventType := "gossip_recovered".
Definition EventPeerDiscovered : EventType := "peer_discovered".
Definition EventPeerLost : EventType := "peer_lost".

(** [type Severity string] *)
Definition Severity : Type := string.

(** An instant ([time.Time]): nanoseconds elapsed since the zero time, so
    that [t.IsZero()] is [t = 0]. *)
Definition Time : Type := Z.

(** [type Event struct { ... }]; the field [Type] is spelled [Type_]. *)
Module Event.
Record t : Type := mk {
  Type_ : EventType;
  Severity : Severity;
  Timestamp : Time;
  ValidatorName : string;
  PublicIP : string;
  Cluster : string;
  ActivePubkey : string;
  PassivePubkey : string;
  Message : string;
  Details : gmap string string
}.
End Event.

(** A [context.Context], as far as its deadline goes. *)
Module Context.
Record t : Type := mk { Deadline : Time }.
End Context.

(** [context.WithTimeout(context.Background(), timeout)], called at [now]. *)
Definition WithTimeout (now : Time) (timeout : Z) : Context.t :=
  {| Context.Deadline := now + timeout |}.

(** [type Notifier interface { Name() string; Send(ctx, event) error;
    IsEnabled() bool }].  A call of [Send] that starts at instant [now]
    returns its error and the time it took. *)
Module Notifier.
Record t : Type := mk {
  Name : string;
  Send : Context.t → Event.t → Time → config.error * N;
  IsEnabled : bool
}.
End Notifier.

(** [type Manager struct { notifiers; logger; enabled; eventFilter }];
    what the logger writes is recorded among the effects. *)
Module Manager.
Record t : Type := mk {
  notifiers : list Notifier.t;
  enabled : bool;
  eventFilter : config.NotificationEvents.t
}.
End Manager.

(** Effects of a fan-out: log records, and calls of [Send] on a notifier
    with the context and event passed, the instant the call began and the
    error it returned. *)
Inductive Effect : Type :=
  | LogDebug (msg : string) (args : list string)
  | LogError (msg : string) (args : list string)
  | Sent (notifier : Notifier.t) (ctx : Context.t) (event : Event.t)
         (began : Time) (result : config.error).

(** [func (m *Manager) IsEnabled() bool] *)
Definition Manager_IsEnabled (m : Manager.t) : bool :=
  Manager.enabled m && bool_decide (0 < length (Manager.notifiers m))%nat.

(** [func (m *Manager) isEventEnabled(eventType EventType) bool] *)
Definition isEventEnabled (m : Manager.t) (eventType : EventType) : bool :=
  let f := Manager.eventFilter m in
  if bool_decide (eventType = EventStartup) then config.NotificationEvents.Startup f
  else if bool_decide (eventType = EventShutdown) then config.NotificationEvents.Shutdown f
  else if bool_decide (eventType = EventBecomingActive) then config.NotificationEvents.BecomingActive f
  else if bool_decide (eventType = EventBecameActive) then config.NotificationEvents.BecameActive f
  else if bool_decide (eventType = EventBecomingPassive) then config.NotificationEvents.BecomingPassive f
  else if bool_decide (eventType = EventBecamePassive) then config.NotificationEvents.BecamePassive f
  else if bool_decide (eventType = EventHealthUnhealthy) then config.NotificationEvents.HealthUnhealthy f
  else if bool_decide (eventType = EventHealthRecovered) then config.NotificationEvents.HealthRecovered f
  else if bool_decide (eventType = EventDelinquent) then config.NotificationEvents.Delinquent f
  else if bool_decide (eventType = EventGossipLost) then config.NotificationEvents.GossipLost f
  else if bool_decide (eventType = EventGossipRecovered) then config.NotificationEvents.GossipRecovered f
  else if bool_decide (eventType = EventPeerDiscovered) then config.NotificationEvents.PeerDiscovered f
  else if bool_decide (eventType = EventPeerLost) then config.NotificationEvents.PeerLost f
  else true.

(** [event.Timestamp = ts] *)
Definition Event_set_Timestamp (event : Event.t) (ts : Time) : Event.t :=
  {| Event.Type_ := Event.Type_ event; Event.Severity := Event.Severity event;
     Event.Timestamp := ts; Event.ValidatorName := Event.ValidatorName event;
     Event.PublicIP := Event.PublicIP event; Event.Cluster := Event.Cluster event;
     Event.ActivePubkey := Event.ActivePubkey event;
     Event.PassivePubkey := Event.PassivePubkey event;
     Event.Message := Event.Message event; Event.Details := Event.Details event |}.

(** The loop [for _, notifier := range m.notifiers] of [Notify], entered at
    instant [now]; yields the instant at which it ends and its effects.
    Time passes only inside [Send]. *)
Fixpoint Notify_loop (ctx : Context.t) (event : Event.t) (now : Time)
    (notifiers : list Notifier.t) : Time * list Effect :=
  match notifiers with
  | [] => (now, [])
  | notifier :: rest =>
      if negb (Notifier.IsEnabled notifier) then Notify_loop ctx event now rest
      else
        let '(err, took) := Notifier.Send notifier ctx event now in
        let record :=
          match err with
          | Some e =>
              LogError "notification failed"
                ["service"; Notifier.Name notifier; "event"; Event.Type_ event;
                 "error"; e]
          | None =>
              LogDebug "notification sent"
                ["service"; Notifier.Name notifier; "event"; Event.Type_ event]
          end in
        let '(finish, effects) := Notify_loop ctx event (now + Z.of_N took) rest in
        (finish, Sent notifier ctx event now err :: record :: effects)
  end.

(** [func (m *Manager) Notify(event Event)], called at instant [now]; it
    has no result. *)
Definition Notify (m : Manager.t) (event : Event.t) (now : Time)
    : Time * list Effect :=
  if negb (Manager.enabled m) then (now, [])
  else if negb (isEventEnabled m (Event.Type_ event)) then
    (now, [LogDebug "event type disabled, skipping notification"
             ["event"; Event.Type_ event]])
  else
    let event :=
      if bool_decide (Event.Timestamp event = 0)
      then Event_set_Timestamp event now else event in
    let ctx := WithTimeout now (10 * config.Second) in
    Notify_loop ctx event now (Manager.notifiers m).

(** A call of [Send]: the notifier it was made on, the context passed, the
    instant the call began and the error it returned. *)
Module Dispatch.
Record t : Type := mk {
  to : Notifier.t;
  ctx : Context.t;
  began : Time;
  result : config.error
}.
End Dispatch.

(** The calls of [Send] among some effects, in order. *)
Definition sends (t : list Effect) : list Dispatch.t :=
  omap (λ e, match e with
             | Sent n ctx _ began r => Some (Dispatch.mk n ctx began r)
             | _ => None
             end) t.

(** The failure records among some effects, in order. *)
Definition logged_failures (t : list Effect) : list (string * list string) :=
  omap (λ e, match e with LogError msg args => Some (msg, args) | _ => None end) t.

(** The record that [Notify] logs for a failed call of [Send]. *)
Definition failure_record (eventType : EventType) (d : Dispatch.t)
    : option (string * list string) :=
  match Dispatch.result d with
  | Some e =>
      Some ("notification failed"%string,
            ["service"; Notifier.Name (Dispatch.to d); "event"; eventType;
             "error"; e]%string)
  | None => None
  end.

(** *** Severities and the tables of the sinks *)

Definition SeverityCritical : Severity := "critical".
Definition SeverityError : Severity := "error".
Definition SeverityWarning : Severity := "warning".
Definition SeverityInfo : Severity := "info".

(** A [switch] over string constants: the value of the first case whose
    constant equals [x], and [dflt] when there is none. *)
Fixpoint switch {A : Type} (x : string) (cases : list (string * A)) (dflt : A) : A :=
  match cases with
  | [] => dflt
  | (k, v) :: rest => if bool_decide (x = k) then v else switch x rest dflt
  end.

(** [func GetDefaultSeverity(eventType EventType) Severity] *)
Definition GetDefaultSeverity (eventType : EventType) : Severity :=
  switch eventType
    [ (EventBecomingActive, SeverityCritical); (EventDelinquent, SeverityCritical);
      (EventHealthUnhealthy, SeverityError); (EventGossipLost, SeverityError);
      (EventPeerLost, SeverityError);
      (EventBecomingPassive, SeverityWarning); (EventShutdown, SeverityWarning) ]
    SeverityInfo.

(** [func truncatePubkey(pubkey string) string] (discord.go):
    [pubkey[:6] + "..." + pubkey[len(pubkey)-4:]] for keys longer than
    twelve bytes. *)
Definition truncatePubkey (pubkey : string) : string :=
  if bool_decide (String.length pubkey ≤ 12)%nat then pubkey
  else
    substring 0 6 pubkey +:+ "..."
      +:+ substring (String.length pubkey - 4) 4 pubkey.

(** **** Discord *)

(** [type DiscordNotifier struct { ... }], without its HTTP client and
    logger. *)
Module DiscordNotifier.
Record t : Type := mk {
  webhookURL : string;
  username : string;
  avatarURL : string;
  enabled : bool
}.
End DiscordNotifier.

(** [type discordField struct { Name, Value string; Inline bool }] *)
Module discordField.
Record t : Type := mk { Name : string; Value : string; Inline : bool }.
End discordField.

(** [func NewDiscordNotifier(opts DiscordOptions) *DiscordNotifier] *)
Definition NewDiscordNotifier (WebhookURL Username AvatarURL : string)
    : DiscordNotifier.t :=
  {| DiscordNotifier.webhookURL := WebhookURL;
     DiscordNotifier.username := Username;
     DiscordNotifier.avatarURL := AvatarURL;
     DiscordNotifier.enabled := bool_decide (WebhookURL ≠ "") |}.

(** [func (d *DiscordNotifier) getTitle(event Event) string] *)
Definition Discord_getTitle (event : Event.t) : string :=
  switch (Event.Type_ event)
    [ (EventStartup, "Validator HA Started");
      (EventShutdown, "Validator HA Stopped");
      (EventBecomingActive, "FAILOVER: Becoming Active");
      (EventBecameActive, "Became Active");
      (EventBecomingPassive, "Becoming Passive");
      (EventBecamePassive, "Became Passive");
      (EventHealthUnhealthy, "Health Alert: Unhealthy");
      (EventHealthRecovered, "Health Recovered");
      (EventDelinquent, "CRITICAL: Validator Delinquent");
      (EventGossipLost, "Lost from Gossip");
      (EventGossipRecovered, "Gossip Recovered");
      (EventPeerDiscovered, "Peer Discovered");
      (EventPeerLost, "Peer Lost") ]%string
    (Event.Type_ event).

(** [func (d *DiscordNotifier) getDescription(event Event) string] *)
Definition Discord_getDescription (event : Event.t) : string :=
  let v := Event.ValidatorName event in
  if bool_decide (Event.Message event ≠ "") then Event.Message event
  else
    switch (Event.Type_ event)
      [ (EventStartup, "Validator **" +:+ v +:+ "** HA manager has started");
        (EventShutdown, "Validator **" +:+ v +:+ "** HA manager is shutting down");
        (EventBecomingActive, "Validator **" +:+ v +:+ "** is transitioning to ACTIVE role");
        (EventBecameActive, "Validator **" +:+ v +:+ "** is now ACTIVE");
        (EventBecomingPassive, "Validator **" +:+ v +:+ "** is transitioning to passive role");
        (EventBecamePassive, "Validator **" +:+ v +:+ "** is now passive");
        (EventHealthUnhealthy, "Validator **" +:+ v +:+ "** is reporting unhealthy status");
        (EventHealthRecovered, "Validator **" +:+ v +:+ "** health has recovered");
        (EventDelinquent, "Validator **" +:+ v +:+ "** is DELINQUENT - not voting!");
        (EventGossipLost, "Validator **" +:+ v +:+ "** is no longer visible in gossip");
        (EventGossipRecovered, "Validator **" +:+ v +:+ "** is now visible in gossip");
        (EventPeerDiscovered, "New peer discovered by **" +:+ v +:+ "**");
        (EventPeerLost, "Peer lost by **" +:+ v +:+ "**") ]
      ("Event on validator **" +:+ v +:+ "**").

(** [func (d *DiscordNotifier) getColor(severity Severity) int], with the
    colour constants [0xFF0000], [0xFF8C00], [0xFFFF00] and [0x00FF00]. *)
Definition Discord_getColor (severity : Severity) : Z :=
  switch severity
    [ (SeverityCritical, 16711680); (SeverityError, 16747520);
      (SeverityWarning, 16776960) ]
    65280.

(** [func (d *DiscordNotifier) getFields(event Event) []discordField];
    [visit] is the order in which the loop ranges over [event.Details]. *)
Definition Discord_getFields (event : Event.t) (visit : list (string * string))
    : list discordField.t :=
  let fields :=
    [ discordField.mk "Validator" (Event.ValidatorName event) true;
      discordField.mk "Cluster" (Event.Cluster event) true ] in
  let fields :=
    if bool_decide (Event.PublicIP event ≠ "")
    then fields ++ [discordField.mk "IP" (Event.PublicIP event) true]
    else fields in
  let fields :=
    if bool_decide (Event.ActivePubkey event ≠ "")
    then fields ++ [discordField.mk "Active Pubkey"
                      (truncatePubkey (Event.ActivePubkey event)) true]
    else fields in
  let fields :=
    if bool_decide (Event.PassivePubkey event ≠ "")
    then fields ++ [discordField.mk "Passive Pubkey"
                      (truncatePubkey (Event.PassivePubkey event)) true]
    else fields in
  foldl (λ fields kv, fields ++ [discordField.mk kv.1 kv.2 true]) fields visit.

(** **** Telegram *)

(** [type TelegramNotifier struct { ... }], without its HTTP client and
    logger. *)
Module TelegramNotifier.
Record t : Type := mk {
  botToken : string;
  chatID : string;
  parseMode : string;
  enabled : bool
}.
End TelegramNotifier.

(** [func NewTelegramNotifier(opts TelegramOptions) *TelegramNotifier] *)
Definition NewTelegramNotifier (BotToken ChatID ParseMode : string)
    : TelegramNotifier.t :=
  {| TelegramNotifier.botToken := BotToken;
     TelegramNotifier.chatID := ChatID;
     TelegramNotifier.parseMode := ParseMode;
     TelegramNotifier.enabled :=
       bool_decide (BotToken ≠ "") && bool_decide (ChatID ≠ "") |}.

(** [func (t *TelegramNotifier) getTitle(event Event) string] *)
Definition Telegram_getTitle (event : Event.t) : string :=
  switch (Event.Type_ event)
    [ (EventStartup, "Validator HA Started");
      (EventShutdown, "Validator HA Stopped");
      (EventBecomingActive, "FAILOVER: Becoming Active");
      (EventBecameActive, "Became Active");
      (EventBecomingPassive, "Becoming Passive");
      (EventBecamePassive, "Became Passive");
      (EventHealthUnhealthy, "Health Alert: Unhealthy");
      (EventHealthRecovered, "Health Recovered");
      (EventDelinquent, "CRITICAL: Validator Delinquent");
      (EventGossipLost, "Lost from Gossip");
      (EventGossipRecovered, "Gossip Recovered");
      (EventPeerDiscovered, "Peer Discovered");
      (EventPeerLost, "Peer Lost") ]%string
    (Event.Type_ event).

(** [func (t *TelegramNotifier) getDescription(event Event) string] *)
Definition Telegram_getDescription (event : Event.t) : string :=
  let v := Event.ValidatorName event in
  if bool_decide (Event.Message event ≠ "") then Event.Message event
  else
    switch (Event.Type_ event)
      [ (EventStartup, "Validator " +:+ v +:+ " HA manager has started");
        (EventShutdown, "Validator " +:+ v +:+ " HA manager is shutting down");
        (EventBecomingActive, "Validator " +:+ v +:+ " is transitioning to ACTIVE role");
        (EventBecameActive, "Validator " +:+ v +:+ " is now ACTIVE");
        (EventBecomingPassive, "Validator " +:+ v +:+ " is transitioning to passive role");
        (EventBecamePassive, "Validator " +:+ v +:+ " is now passive");
        (EventHealthUnhealthy, "Validator " +:+ v +:+ " is reporting unhealthy status");
        (EventHealthRecovered, "Validator " +:+ v +:+ " health has recovered");
        (EventDelinquent, "Validator " +:+ v +:+ " is DELINQUENT - not voting!");
        (EventGossipLost, "Validator " +:+ v +:+ " is no longer visible in gossip");
        (EventGossipRecovered, "Validator " +:+ v +:+ " is now visible in gossip");
        (EventPeerDiscovered, "New peer discovered by " +:+ v);
        (EventPeerLost, "Peer lost by " +:+ v) ]
      ("Event on validator " +:+ v).

(** **** Slack *)

(** [type SlackNotifier struct { ... }], without its HTTP client and
    logger. *)
Module SlackNotifier.
Record t : Type := mk {
  webhookURL : string;
  channel : string;
  username : string;
  iconEmoji : string;
  enabled : bool
}.
End SlackNotifier.

(** [func NewSlackNotifier(opts SlackOptions) *SlackNotifier] *)
Definition NewSlackNotifier (WebhookURL Channel Username IconEmoji : string)
    : SlackNotifier.t :=
  {| SlackNotifier.webhookURL := WebhookURL;
     SlackNotifier.channel := Channel;
     SlackNotifier.username := Username;
     SlackNotifier.iconEmoji := IconEmoji;
     SlackNotifier.enabled := bool_decide (WebhookURL ≠ "") |}.

(** [func (s *SlackNotifier) getTitle(event Event) string] *)
Definition Slack_getTitle (event : Event.t) : string :=
  let emoji :=
    switch (Event.Severity event)
      [ (SeverityCritical, ":rotating_light:"); (SeverityError, ":warning:");
        (SeverityWarning, ":large_yellow_circle:") ]%string
      ":information_source:"%string in
  let title :=
    switch (Event.Type_ event)
      [ (EventStartup, "Validator HA Started");
        (EventShutdown, "Validator HA Stopped");
        (EventBecomingActive, "FAILOVER: Becoming Active");
        (EventBecameActive, "Became Active");
        (EventBecomingPassive, "Becoming Passive");
        (EventBecamePassive, "Became Passive");
        (EventHealthUnhealthy, "Health Alert: Unhealthy");
        (EventHealthRecovered, "Health Recovered");
        (EventDelinquent, "CRITICAL: Validator Delinquent");
        (EventGossipLost, "Lost from Gossip");
        (EventGossipRecovered, "Gossip Recovered");
        (EventPeerDiscovered, "Peer Discovered");
        (EventPeerLost, "Peer Lost") ]%string
      (Event.Type_ event) in
  emoji +:+ " " +:+ title.

(** [func (s *SlackNotifier) getDescription(event Event) string] *)
Definition Slack_getDescription (event : Event.t) : string :=
  let v := Event.ValidatorName event in
  if bool_decide (Event.Message event ≠ "") then Event.Message event
  else
    switch (Event.Type_ event)
      [ (EventStartup, "Validator *" +:+ v +:+ "* HA manager has started");
        (EventShutdown, "Validator *" +:+ v +:+ "* HA manager is shutting down");
        (EventBecomingActive, "Validator *" +:+ v +:+ "* is transitioning to ACTIVE role");
        (EventBecameActive, "Validator *" +:+ v +:+ "* is now ACTIVE");
        (EventBecomingPassive, "Validator *" +:+ v +:+ "* is transitioning to passive role");
        (EventBecamePassive, "Validator *" +:+ v +:+ "* is now passive");
        (EventHealthUnhealthy, "Validator *" +:+ v +:+ "* is reporting unhealthy status");
        (EventHealthRecovered, "Validator *" +:+ v +:+ "* health has recovered");
        (EventDelinquent, "Validator *" +:+ v +:+ "* is DELINQUENT - not voting!");
        (EventGossipLost, "Validator *" +:+ v +:+ "* is no longer visible in gossip");
        (EventGossipRecovered, "Validator *" +:+ v +:+ "* is now visible in gossip");
        (EventPeerDiscovered, "New peer discovered by *" +:+ v +:+ "*");
        (EventPeerLost, "Peer lost by *" +:+ v +:+ "*") ]
      ("Event on validator *" +:+ v +:+ "*").

(** [func (s *SlackNotifier) getColor(severity Severity) string] *)
Definition Slack_getColor (severity : Severity) : string :=
  switch severity
    [ (SeverityCritical, "#FF0000"); (SeverityError, "#FF8C00");
      (SeverityWarning, "#FFFF00") ]%string
    "#00FF00"%string.

(** **** PagerDuty *)

(** [type PagerDutyNotifier struct { ... }], without its HTTP client and
    logger. *)
Module PagerDutyNotifier.
Record t : Type := mk { routingKey : string; enabled : bool }.
End PagerDutyNotifier.

(** [type pagerDutyEvent struct { ... }] *)
Module pagerDutyEvent.
Record t : Type := mk {
  Summary : string;
  Severity : string;
  Source : string;
  Timestamp : string;
  Component : string;
  Group : string;
  Class : string;
  CustomDetails : gmap string string
}.
End pagerDutyEvent.

(** [type pagerDutyPayload struct { ... }] *)
Module pagerDutyPayload.
Record t : Type := mk {
  RoutingKey : string;
  EventAction : string;
  DedupKey : string;
  Payload : pagerDutyEvent.t
}.
End pagerDutyPayload.

(** [func NewPagerDutyNotifier(opts PagerDutyOptions) *PagerDutyNotifier] *)
Definition NewPagerDutyNotifier (RoutingKey : string) : PagerDutyNotifier.t :=
  {| PagerDutyNotifier.routingKey := RoutingKey;
     PagerDutyNotifier.enabled := bool_decide (RoutingKey ≠ "") |}.

(** [t.Unix()]: seconds since January 1, 1970 UTC; the zero time lies
    62135596800 seconds before it. *)
Definition Time_Unix (t : Time) : Z := t `div` config.Second - 62135596800.

(** [event.Details[key]]: the empty string for a missing key. *)
Definition detail (event : Event.t) (key : string) : string :=
  default ""%string (Event.Details event !! key).

(** [func (p *PagerDutyNotifier) getSummary(event Event) string] *)
Definition PagerDuty_getSummary (event : Event.t) : string :=
  let v := Event.ValidatorName event in
  if bool_decide (Event.Message event ≠ "") then Event.Message event
  else
    switch (Event.Type_ event)
      [ (EventStartup, "[" +:+ v +:+ "] Validator HA manager started");
        (EventShutdown, "[" +:+ v +:+ "] Validator HA manager stopped");
        (EventBecomingActive, "[" +:+ v +:+ "] FAILOVER: Validator becoming active");
        (EventBecameActive, "[" +:+ v +:+ "] Validator is now active");
        (EventBecomingPassive, "[" +:+ v +:+ "] Validator becoming passive");
        (EventBecamePassive, "[" +:+ v +:+ "] Validator is now passive");
        (EventHealthUnhealthy, "[" +:+ v +:+ "] Validator health check failed");
        (EventHealthRecovered, "[" +:+ v +:+ "] Validator health recovered");
        (EventDelinquent, "[" +:+ v +:+ "] CRITICAL: Validator is delinquent (not voting)");
        (EventGossipLost, "[" +:+ v +:+ "] Validator lost from gossip network");
        (EventGossipRecovered, "[" +:+ v +:+ "] Validator visible in gossip network");
        (EventPeerDiscovered,
           "[" +:+ v +:+ "] Peer discovered: " +:+ detail event "peer_name");
        (EventPeerLost, "[" +:+ v +:+ "] Peer lost: " +:+ detail event "peer_name") ]
      ("[" +:+ v +:+ "] Event: " +:+ Event.Type_ event).

(** [func (p *PagerDutyNotifier) getSeverity(severity Severity) string] *)
Definition PagerDuty_getSeverity (severity : Severity) : string :=
  switch severity
    [ (SeverityCritical, "critical"); (SeverityError, "error");
      (SeverityWarning, "warning") ]%string
    "info"%string.

(** [func (p *PagerDutyNotifier) getDedupKey(event Event) string] *)
Definition PagerDuty_getDedupKey (event : Event.t) : string :=
  let v := Event.ValidatorName event in
  let unix := pretty (Time_Unix (Event.Timestamp event)) in
  switch (Event.Type_ event)
    [ (EventHealthUnhealthy, v +:+ "-health"); (EventHealthRecovered, v +:+ "-health");
      (EventGossipLost, v +:+ "-gossip"); (EventGossipRecovered, v +:+ "-gossip");
      (EventBecomingActive, v +:+ "-active-" +:+ unix);
      (EventBecameActive, v +:+ "-active-" +:+ unix);
      (EventBecomingPassive, v +:+ "-passive-" +:+ unix);
      (EventBecamePassive, v +:+ "-passive-" +:+ unix);
      (EventPeerLost, v +:+ "-peer-" +:+ detail event "peer_name");
      (EventPeerDiscovered, v +:+ "-peer-" +:+ detail event "peer_name") ]
    (v +:+ "-" +:+ Event.Type_ event +:+ "-" +:+ unix).

(** The event action that [PagerDutyNotifier.Send] chooses. *)
Definition PagerDuty_eventAction (event : Event.t) : string :=
  if bool_decide (Event.Type_ event = EventHealthRecovered)
     || bool_decide (Event.Type_ event = EventGossipRecovered)
     || bool_decide (Event.Type_ event = EventBecamePassive)
  then "resolve" else "trigger".

(** The custom details that [PagerDutyNotifier.Send] builds: four fixed
    entries, the two public keys when they are not empty, and then every
    entry of [event.Details], ranged over in the order [visit]. *)
Definition PagerDuty_customDetails (event : Event.t)
    (visit : list (string * string)) : gmap string string :=
  let customDetails : gmap string string :=
    <["event_type" := Event.Type_ event]>
      (<["public_ip" := Event.PublicIP event]>
         (<["cluster" := Event.Cluster event]>
            (<["validator_name" := Event.ValidatorName event]> ∅))) in
  let customDetails :=
    if bool_decide (Event.ActivePubkey event ≠ "")
    then <["active_pubkey" := Event.ActivePubkey event]> customDetails
    else customDetails in
  let customDetails :=
    if bool_decide (Event.PassivePubkey event ≠ "")
    then <["passive_pubkey" := Event.PassivePubkey event]> customDetails
    else customDetails in
  foldl (λ customDetails kv, <[kv.1 := kv.2]> customDetails) customDetails visit.

(** *** The manager's constructor *)

(** [type ManagerOptions struct { Config *config.NotificationConfig;
    ValidatorName, PublicIP, Cluster string }] *)
Module ManagerOptions.
Record t : Type := mk {
  Config : config.NotificationConfig.t;
  ValidatorName : string;
  PublicIP : string;
  Cluster : string
}.
End ManagerOptions.

Section manager.
(** What each sink's [Send] does once it has found the sink enabled:
    building the payload, marshalling and posting it over HTTP. *)
Variable discord_post :
  DiscordNotifier.t → Context.t → Event.t → Time → config.error * N.
Variable telegram_post :
  TelegramNotifier.t → Context.t → Event.t → Time → config.error * N.
Variable slack_post :
  SlackNotifier.t → Context.t → Event.t → Time → config.error * N.
Variable pagerduty_post :
  PagerDutyNotifier.t → Context.t → Event.t → Time → config.error * N.

(** [func (d *DiscordNotifier) Send(ctx, event) error]: a disabled sink
    returns [nil] at once. *)
Definition DiscordNotifier_Send (d : DiscordNotifier.t) (ctx : Context.t)
    (event : Event.t) (now : Time) : config.error * N :=
  if negb (DiscordNotifier.enabled d) then (None, 0%N)
  else discord_post d ctx event now.

(** [func (t *TelegramNotifier) Send(ctx, event) error] *)
Definition TelegramNotifier_Send (t : TelegramNotifier.t) (ctx : Context.t)
    (event : Event.t) (now : Time) : config.error * N :=
  if negb (TelegramNotifier.enabled t) then (None, 0%N)
  else telegram_post t ctx event now.

(** [func (s *SlackNotifier) Send(ctx, event) error] *)
Definition SlackNotifier_Send (s : SlackNotifier.t) (ctx : Context.t)
    (event : Event.t) (now : Time) : config.error * N :=
  if negb (SlackNotifier.enabled s) then (None, 0%N)
  else slack_post s ctx event now.

(** [func (p *PagerDutyNotifier) Send(ctx, event) error] *)
Definition PagerDutyNotifier_Send (p : PagerDutyNotifier.t) (ctx : Context.t)
    (event : Event.t) (now : Time) : config.error * N :=
  if negb (PagerDutyNotifier.enabled p) then (None, 0%N)
  else pagerduty_post p ctx event now.

(** The four sinks as values of the interface [Notifier]: their methods
    [Name], [Send] and [IsEnabled]. *)
Definition Discord_Notifier (d : DiscordNotifier.t) : Notifier.t :=
  Notifier.mk "discord" (DiscordNotifier_Send d) (DiscordNotifier.enabled d).

Definition Telegram_Notifier (t : TelegramNotifier.t) : Notifier.t :=
  Notifier.mk "telegram" (TelegramNotifier_Send t) (TelegramNotifier.enabled t).

Definition Slack_Notifier (s : SlackNotifier.t) : Notifier.t :=
  Notifier.mk "slack" (SlackNotifier_Send s) (SlackNotifier.enabled s).

Definition PagerDuty_Notifier (p : PagerDutyNotifier.t) : Notifier.t :=
  Notifier.mk "pagerduty" (PagerDutyNotifier_Send p) (PagerDutyNotifier.enabled p).

(** [func NewManager(opts ManagerOptions) *Manager]; the lines it logs
    are left out.  A disabled configuration gives a manager whose other
    fields hold their zero values. *)
Definition NewManager (opts : ManagerOptions.t) : Manager.t :=
  let cfg := ManagerOptions.Config opts in
  let dc := config.NotificationConfig.Discord cfg in
  let tg := config.NotificationConfig.Telegram cfg in
  let sl := config.NotificationConfig.Slack cfg in
  let pd := config.NotificationConfig.PagerDuty cfg in
  if negb (config.NotificationConfig.Enabled cfg) then
    {| Manager.notifiers := []; Manager.enabled := false;
       Manager.eventFilter :=
         config.NotificationEvents.mk false false false false false false false
                                      false false false false false false |}
  else
    let notifiers : list Notifier.t := [] in
    let notifiers :=
      if config.DiscordConfig.Enabled dc
      then notifiers ++ [Discord_Notifier
                           (NewDiscordNotifier (config.DiscordConfig.WebhookURL dc)
                              (config.DiscordConfig.Username dc)
                              (config.DiscordConfig.AvatarURL dc))]
      else notifiers in
    let notifiers :=
      if config.TelegramConfig.Enabled tg
      then notifiers ++ [Telegram_Notifier
                           (NewTelegramNotifier (config.TelegramConfig.BotToken tg)
                              (config.TelegramConfig.ChatID tg)
                              (config.TelegramConfig.ParseMode tg))]
      else notifiers in
    let notifiers :=
      if config.SlackConfig.Enabled sl
      then notifiers ++ [Slack_Notifier
                           (NewSlackNotifier (config.SlackConfig.WebhookURL sl)
                              (config.SlackConfig.Channel sl)
                              (config.SlackConfig.Username sl)
                              (config.SlackConfig.IconEmoji sl))]
      else notifiers in
    let notifiers :=
      if config.PagerDutyConfig.Enabled pd
      then notifiers ++ [PagerDuty_Notifier
                           (NewPagerDutyNotifier (config.PagerDutyConfig.RoutingKey pd))]
      else notifiers in
    {| Manager.notifiers := notifiers; Manager.enabled := true;
       Manager.eventFilter := config.NotificationConfig.Events cfg |}.

End manager.

(** The events handed to [Send] among some effects, in order. *)
Definition sent_events (t : list Effect) : list Event.t :=
  omap (λ e, match e with Sent _ _ event _ _ => Some event | _ => None end) t.

(** The thirteen event types that have a switch. *)
Definition known_events : list EventType :=
  [ EventStartup; EventShutdown; EventBecomingActive; EventBecameActive;
    EventBecomingPassive; EventBecamePassive; EventHealthUnhealthy;
    EventHealthRecovered; EventDelinquent; EventGossipLost;
    EventGossipRecovered; EventPeerDiscovered; EventPeerLost ].

End notify.

(** ** Concrete configurations used in the examples *)

Module scenarios.
Import config notify.

(** Two peers whose addresses differ in the last octet: the string order,
    not the numeric one, decides ([".10"] sorts before [".2"]). *)
Definition two_peers : Peers :=
  <["node-a" := Peer.mk "10.0.0.2" "node-a"]>
    (<["node-b" := Peer.mk "10.0.0.10" "node-b"]> ∅).

(** Three peers, two of which carry the same address. *)
Definition same_address : Peers :=
  <["node-a" := Peer.mk "10.0.0.2" "node-a"]>
    (<["node-b" := Peer.mk "10.0.0.1" "node-b"]>
       (<["node-c" := Peer.mk "10.0.0.2" "node-c"]> ∅)).

(** A scripted runner for examples: the command ["false"] fails, every
    other command succeeds; the world counts the commands run. *)
Definition scripted_Run (o : RunOptions.t) (n : nat) : error * nat :=
  (if bool_decide (RunOptions.Command o = "false")
   then Some "exit status 1"%string else None, S n).

Definition guard : Hook.t := Hook.mk "guard" "false" [] true.
Definition warm_up : Hook.t := Hook.mk "warm up" "false" ["-q"%string] false.
Definition announce : Hook.t := Hook.mk "announce" "echo" ["hi"%string] false.
Definition live : HooksRunOptions.t := HooksRunOptions.mk false [].

Definition no_hooks : Hooks.t := Hooks.mk [] [].

Definition one_peer : gmap string Peer.t :=
  {[ "node-a"%string := Peer.mk "10.0.0.1" "node-a" ]}.

(** A well-formed configuration: positive durations, both role commands,
    one peer. *)
Definition sound : Failover.t :=
  {| Failover.DryRun := false;
     Failover.PollIntervalDuration := 5 * Second;
     Failover.LeaderlessThresholdDuration := 15 * Second;
     Failover.TakeoverJitterSeconds := 3;
     Failover.Active := Role.mk "active" "set-identity-active" [] ∅ no_hooks;
     Failover.Passive := Role.mk "passive" "set-identity-passive" [] ∅ no_hooks;
     Failover.Peers := one_peer |}.

(** [sound] without any of the three timing keys. *)
Definition unset_timing : Failover.t :=
  {| Failover.DryRun := false;
     Failover.PollIntervalDuration := 0;
     Failover.LeaderlessThresholdDuration := 0;
     Failover.TakeoverJitterSeconds := 0;
     Failover.Active := Role.mk "" "set-identity-active" [] ∅ no_hooks;
     Failover.Passive := Role.mk "" "set-identity-passive" [] ∅ no_hooks;
     Failover.Peers := one_peer |}.

(** [sound] with [poll_interval_duration: -5s]. *)
Definition negative_poll : Failover.t :=
  {| Failover.DryRun := false;
     Failover.PollIntervalDuration := -5 * Second;
     Failover.LeaderlessThresholdDuration := 15 * Second;
     Failover.TakeoverJitterSeconds := 3;
     Failover.Active := Failover.Active sound;
     Failover.Passive := Failover.Passive sound;
     Failover.Peers := one_peer |}.

(** [sound] with a post-hook of the active role that sets
    [must_succeed: true]. *)
Definition strict_post : Hooks.t :=
  Hooks.mk [] [Hook.mk "notify" "send-mail" [] true].

Definition post_must_succeed : Failover.t :=
  {| Failover.DryRun := false;
     Failover.PollIntervalDuration := 5 * Second;
     Failover.LeaderlessThresholdDuration := 15 * Second;
     Failover.TakeoverJitterSeconds := 3;
     Failover.Active := Role.mk "active" "set-identity-active" [] ∅ strict_post;
     Failover.Passive := Failover.Passive sound;
     Failover.Peers := one_peer |}.

(** [sound] with [takeover_jitter_seconds: 0] written out. *)
Definition zero_jitter : Failover.t := Failover_set_TakeoverJitterSeconds sound 0.

(** A configuration that switches some events off. *)
Definition quiet : NotificationConfig.t :=
  {| NotificationConfig.Enabled := true;
     NotificationConfig.Discord := DiscordConfig.mk false "" "" "ops" "";
     NotificationConfig.Telegram := TelegramConfig.mk false "" "" "" "Markdown";
     NotificationConfig.Slack := SlackConfig.mk false "" "" "" "" "";
     NotificationConfig.PagerDuty := PagerDutyConfig.mk false "" "";
     NotificationConfig.Events :=
       NotificationEvents.mk false true true true true true true
                             true true true true false false |}.

(** Notifications on, Discord alone enabled, its webhook named by an
    environment variable; and an environment that defines the variable. *)
Definition discord_by_env : NotificationConfig.t :=
  {| NotificationConfig.Enabled := true;
     NotificationConfig.Discord :=
       DiscordConfig.mk true "" "DISCORD_WEBHOOK" "Solana HA Bot" "";
     NotificationConfig.Telegram := TelegramConfig.mk false "" "" "" "HTML";
     NotificationConfig.Slack := SlackConfig.mk false "" "" "" "" "";
     NotificationConfig.PagerDuty := PagerDutyConfig.mk false "" "";
     NotificationConfig.Events :=
       NotificationEvents.mk true true true true true true true
                             true true true true true true |}.

Definition hook_env (name : string) : string :=
  if bool_decide (name = "DISCORD_WEBHOOK") then "https://discord.example/hook"
  else "".

(** A manager with every event switched on and two enabled sinks: the
    first takes four seconds to answer, and fails; the second answers at
    once. *)
Definition every_event : NotificationEvents.t :=
  NotificationEvents.mk true true true true true true true
                               true true true true true true.

Definition slow_sink : Notifier.t :=
  Notifier.mk "discord"
    (λ _ _ _, (Some "discord webhook returned status 500"%string,
               Z.to_N (4 * Second)))
    true.

Definition muted_sink : Notifier.t :=
  Notifier.mk "telegram" (λ _ _ _, (None, 0%N)) false.

Definition quick_sink : Notifier.t :=
  Notifier.mk "slack" (λ _ _ _, (None, 0%N)) true.

Definition three_sinks : Manager.t :=
  Manager.mk [slow_sink; muted_sink; quick_sink] true every_event.

(** The same sinks behind a filter that switches [startup] off. *)
Definition no_startup : Manager.t :=
  Manager.mk [slow_sink; muted_sink; quick_sink] true
    (NotificationEvents.mk false true true true true true true
                           true true true true true true).

Definition started : Event.t :=
  Event.mk EventStartup "info" 0 "validator-1" "10.0.0.1" "mainnet-beta"
           "" "" "" ∅.

(** A peer-lost event with a message and the name of the peer. *)
Definition peer_lost : Event.t :=
  Event.mk EventPeerLost "error" 0 "validator-1" "10.0.0.1" "mainnet-beta"
           "" "" "peer validator-2 disappeared from gossip"
           {[ "peer_name"%string := "validator-2"%string ]}.

(** A health alert and the recovery that follows it a minute later. *)
Definition health_alert : Event.t :=
  Event.mk EventHealthUnhealthy "error" (63900000000 * Second) "validator-1"
           "10.0.0.1" "mainnet-beta" "" "" "" ∅.

Definition health_back : Event.t :=
  Event.mk EventHealthRecovered "info" (63900000060 * Second) "validator-1"
           "10.0.0.1" "mainnet-beta" "" "" "" ∅.

(** The second dispatch, as [Notify three_sinks started] makes it when
    called at instant [0]. *)
Definition second_dispatch : Dispatch.t :=
  Dispatch.mk quick_sink (Context.mk (10 * Second))
              (4 * Second) None.

End scenarios.

(** ** Properties of the string order *)

Module gostring_facts.
Import gostring.

Lemma ascii_compare_refl c : Ascii.compare c c = Eq.
Proof. unfold Ascii.compare. apply N.compare_refl. Qed.

Lemma ascii_compare_lt_trans a b c :
  Ascii.compare a b = Lt → Ascii.compare b c = Lt → Ascii.compare a c = Lt.
Proof.
  unfold Ascii.compare. rewrite !N.compare_lt_iff. lia.
Qed.

Lemma compare_refl s : String.compare s s = Eq.
Proof. induction s as [|c s IH]; simpl; [done|]. by rewrite ascii_compare_refl. Qed.

Lemma compare_lt_trans a : ∀ b c,
  String.compare a b = Lt → String.compare b c = Lt → String.compare a c = Lt.
Proof.
  induction a as [|x a IH]; intros [|y b] [|z c]; simpl; try done.
  destruct (Ascii.compare x y) eqn:Hxy; try done.
  - apply Ascii.compare_eq_iff in Hxy as ->.
    destruct (Ascii.compare y z); try done. apply IH.
  - destruct (Ascii.compare y z) eqn:Hyz; try done.
    + apply Ascii.compare_eq_iff in Hyz as <-. by rewrite Hxy.
    + by rewrite (ascii_compare_lt_trans _ _ _ Hxy Hyz).
Qed.

Lemma lt_irrefl a : ¬ lt a a.
Proof. unfold lt. by rewrite compare_refl. Qed.

Lemma lt_asym a b : lt a b → ¬ lt b a.
Proof.
  unfold lt. intros H1 H2. rewrite String.compare_antisym, H2 in H1. done.
Qed.

Lemma le_lt_or_eq a b : le a b ↔ lt a b ∨ a = b.
Proof.
  unfold le, lt. split.
  - destruct (String.compare a b) eqn:H; try done; [|by left].
    right. by apply String.compare_eq_iff.
  - intros [->| ->]; [done|]. by rewrite compare_refl.
Qed.

Global Instance le_total : Total le.
Proof.
  intros a b. unfold le. rewrite (String.compare_antisym b a).
  destruct (String.compare a b); simpl; [left|left|right]; done.
Qed.

Global Instance le_trans : Transitive le.
Proof.
  intros a b c. rewrite !le_lt_or_eq.
  intros [H1| ->] [H2| ->]; auto.
  left. by apply compare_lt_trans with b.
Qed.

Global Instance le_antisym : AntiSymm (=) le.
Proof.
  intros a b. rewrite !le_lt_or_eq.
  intros [H1| ->] [H2| H2]; auto. by destruct (lt_asym a b).
Qed.

Lemma sort_Strings_perm l : sort_Strings l ≡ₚ l.
Proof. apply merge_sort_Permutation. Qed.

Lemma sort_Strings_sorted l : StronglySorted le (sort_Strings l).
Proof. apply StronglySorted_merge_sort; apply _. Qed.

(** The sorted slice depends only on the contents, not on their order. *)
Lemma sort_Strings_order_irrelevant l1 l2 :
  l1 ≡ₚ l2 → sort_Strings l1 = sort_Strings l2.
Proof.
  intros Hp. apply (StronglySorted_unique le); try apply sort_Strings_sorted.
  by rewrite !sort_Strings_perm.
Qed.

(** In a sorted slice without repetition, later means strictly greater. *)
Lemma sorted_lookup_lt (s : list string) i j a b :
  StronglySorted le s → NoDup s →
  s !! i = Some a → s !! j = Some b → (i < j)%nat → lt a b.
Proof.
  intros Hs. revert i j. induction Hs as [|x s Hs IH Hall]; intros i j Hnd Hi Hj Hij.
  - done.
  - apply NoDup_cons in Hnd as [Hx Hnd].
    destruct j as [|j]; [lia|]. simpl in Hj.
    destruct i as [|i]; simpl in Hi.
    + injection Hi as ->.
      assert (b ∈ s) as Hb by (by eapply list_elem_of_lookup_2).
      rewrite Forall_forall in Hall.
      assert (le a b) as Hle by (by apply Hall).
      apply le_lt_or_eq in Hle as [Hlt | ->]; done.
    + eapply IH; eauto. lia.
Qed.

End gostring_facts.

(** ** Peer ranking ([GetRankedIPs]) *)

Module peers_facts.
Import gostring gostring_facts config scenarios.

Lemma GetIPs_fmap visit : GetIPs visit = (λ e, Peer.IP e.2) <$> visit.
Proof.
  unfold GetIPs.
  cut (∀ acc, foldl (λ ips e, ips ++ [Peer.IP e.2]) acc visit
              = acc ++ ((λ e, Peer.IP e.2) <$> visit)).
  { intros H. by rewrite H. }
  induction visit as [|e visit IH]; intros acc; simpl.
  - by rewrite app_nil_r.
  - by rewrite IH, <- app_assoc.
Qed.

Lemma rank_loop_notin ips : ∀ k (m : gmap string Z) ip,
  ip ∉ ips → rank_loop k ips m !! ip = m !! ip.
Proof.
  induction ips as [|x ips IH]; intros k m ip Hnin; simpl; [done|].
  apply not_elem_of_cons in Hnin as [Hne Hnin].
  rewrite IH by done. by rewrite lookup_insert_ne.
Qed.

Lemma rank_loop_lookup ips : ∀ k (m : gmap string Z) (i : nat) ip,
  NoDup ips → ips !! i = Some ip →
  rank_loop k ips m !! ip = Some (k + Z.of_nat i + 1).
Proof.
  induction ips as [|x ips IH]; intros k m i ip Hnd Hi; [done|].
  apply NoDup_cons in Hnd as [Hx Hnd]. simpl.
  destruct i as [|i]; simpl in Hi.
  - injection Hi as ->. rewrite rank_loop_notin by done.
    rewrite lookup_insert_eq. f_equal. lia.
  - rewrite (IH _ _ i) by done. f_equal. lia.
Qed.

Lemma rank_loop_inv ips (ip : string) r :
  NoDup ips → rank_loop 0 ips ∅ !! ip = Some r →
  ∃ i : nat, ips !! i = Some ip ∧ r = Z.of_nat i + 1.
Proof.
  intros Hnd Hr. destruct (decide (ip ∈ ips)) as [Hin|Hnin].
  - apply list_elem_of_lookup in Hin as [i Hi]. exists i. split; [done|].
    rewrite (rank_loop_lookup _ _ _ i) in Hr by done. injection Hr. lia.
  - rewrite rank_loop_notin in Hr by done. by rewrite lookup_empty in Hr.
Qed.

Lemma distinct_IPs_NoDup (p : Peers) :
  distinct_IPs p ↔ NoDup ((λ e, Peer.IP e.2) <$> map_to_list p).
Proof.
  split.
  - intros Hd. apply NoDup_fmap_2_strong; [|apply NoDup_map_to_list].
    intros [n1 p1] [n2 p2] H1 H2 Heq. simpl in Heq.
    apply elem_of_map_to_list in H1, H2.
    assert (n1 = n2) as -> by eauto. congruence.
  - intros Hnd n1 n2 p1 p2 H1 H2 Heq.
    apply elem_of_map_to_list in H1, H2.
    apply list_elem_of_lookup in H1 as [i Hi], H2 as [j Hj].
    assert (i = j) as ->.
    { eapply NoDup_lookup; [apply Hnd| |]; rewrite list_lookup_fmap.
      - by rewrite Hi.
      - rewrite Hj. simpl. by rewrite Heq. }
    congruence.
Qed.

Lemma configured_elem_of (p : Peers) visit ip :
  ranges p visit → configured p ip ↔ ip ∈ GetIPs visit.
Proof.
  unfold ranges. intros Hv. rewrite GetIPs_fmap, Hv, list_elem_of_fmap. split.
  - intros (name & peer & Hl & <-). exists (name, peer). split; [done|].
    by apply elem_of_map_to_list.
  - intros ([name peer] & -> & Hin). exists name, peer. split; [|done].
    by apply elem_of_map_to_list.
Qed.

Lemma GetIPs_length (p : Peers) visit :
  ranges p visit → length (GetIPs visit) = size p.
Proof.
  unfold ranges. intros Hv.
  by rewrite GetIPs_fmap, length_fmap, Hv, length_map_to_list.
Qed.

(** [C1] For a peers map with [N] peers of pairwise distinct IP strings,
    and whatever order the map is ranged over, [GetRankedIPs] ranks
    exactly the configured IPs, every rank lies in [1..N], every value of
    [1..N] is the rank of some IP, no two IPs share a rank, a
    lexicographically smaller IP has a strictly smaller rank, and any
    other iteration order of the same map yields the identical result. *)
Theorem GetRankedIPs_deterministic_rank (p : Peers) visit :
  ranges p visit → distinct_IPs p →
  let ranked := GetRankedIPs visit in
  let N := Z.of_nat (size p) in
  (∀ ip, is_Some (ranked !! ip) ↔ configured p ip) ∧
  (∀ ip r, ranked !! ip = Some r → 1 ≤ r ≤ N) ∧
  (∀ r, 1 ≤ r ≤ N → ∃ ip, ranked !! ip = Some r) ∧
  (∀ ip1 ip2 r, ranked !! ip1 = Some r → ranked !! ip2 = Some r → ip1 = ip2) ∧
  (∀ ip1 ip2 r1 r2, ranked !! ip1 = Some r1 → ranked !! ip2 = Some r2 →
     gostring.lt ip1 ip2 → r1 < r2) ∧
  (∀ visit', ranges p visit' → GetRankedIPs visit' = ranked).
Proof.
  intros Hv Hd ranked N. subst ranked N. unfold GetRankedIPs.
  set (s := sort_Strings (GetIPs visit)).
  assert (s ≡ₚ GetIPs visit) as Hperm by apply sort_Strings_perm.
  assert (NoDup s) as Hnd.
  { rewrite Hperm, GetIPs_fmap. unfold ranges in Hv. rewrite Hv.
    by apply distinct_IPs_NoDup. }
  assert (StronglySorted gostring.le s) as Hs by apply sort_Strings_sorted.
  assert (length s = size p) as Hlen.
  { rewrite Hperm. by apply GetIPs_length. }
  repeat split.
  - intros [r Hr]. apply rank_loop_inv in Hr as (i & Hi & _); [|done].
    apply (configured_elem_of p visit); [done|]. rewrite <- Hperm.
    by eapply list_elem_of_lookup_2.
  - intros Hc. apply (configured_elem_of p visit) in Hc; [|done].
    rewrite <- Hperm in Hc. apply list_elem_of_lookup in Hc as [i Hi].
    rewrite (rank_loop_lookup _ _ _ i) by done. eauto.
  - apply rank_loop_inv in H as (i & Hi & ->); [|done]. lia.
  - apply rank_loop_inv in H as (i & Hi & ->); [|done].
    apply lookup_lt_Some in Hi. lia.
  - intros r Hr.
    destruct (lookup_lt_is_Some_2 s (Z.to_nat (r - 1))) as [ip Hip]; [lia|].
    exists ip. rewrite (rank_loop_lookup _ _ _ (Z.to_nat (r - 1))) by done.
    f_equal. lia.
  - intros ip1 ip2 r H1 H2.
    apply rank_loop_inv in H1 as (i & Hi & ->); [|done].
    apply rank_loop_inv in H2 as (j & Hj & Hij); [|done].
    assert (i = j) as -> by lia. congruence.
  - intros ip1 ip2 r1 r2 H1 H2 Hlt.
    apply rank_loop_inv in H1 as (i & Hi & ->); [|done].
    apply rank_loop_inv in H2 as (j & Hj & ->); [|done].
    destruct (decide (i < j)%nat) as [|Hge]; [lia|]. exfalso.
    destruct (decide (i = j)) as [->|Hne].
    + assert (ip1 = ip2) as -> by congruence. by apply (lt_irrefl ip2).
    + apply (lt_asym ip1 ip2); [done|].
      apply (sorted_lookup_lt s j i); auto. lia.
  - intros visit' Hv'. f_equal. apply sort_Strings_order_irrelevant.
    rewrite !GetIPs_fmap. unfold ranges in *. by rewrite Hv, Hv'.
Qed.

Example GetRankedIPs_two_peers :
  map_to_list (GetRankedIPs (map_to_list two_peers))
  ≡ₚ [("10.0.0.10"%string, 1); ("10.0.0.2"%string, 2)].
Proof. vm_compute. apply perm_swap || reflexivity. Qed.

Lemma GetRankedIPs_deterministic_rank_witness :
  ranges two_peers (map_to_list two_peers) ∧ distinct_IPs two_peers ∧
  GetRankedIPs (reverse (map_to_list two_peers)) !! "10.0.0.2"%string = Some 2.
Proof.
  assert (ranges two_peers (map_to_list two_peers)) as Hr by (unfold ranges; reflexivity).
  assert (distinct_IPs two_peers) as Hd.
  { apply distinct_IPs_NoDup. apply (bool_decide_unpack _). by vm_compute. }
  split; [exact Hr|]. split; [exact Hd|].
  destruct (GetRankedIPs_deterministic_rank two_peers _ Hr Hd)
    as (_ & _ & _ & _ & _ & Hsame).
  rewrite (Hsame (reverse (map_to_list two_peers))).
  - by vm_compute.
  - unfold ranges. apply reverse_Permutation.
Defined.

End peers_facts.

(** ** Hook chains ([Hook.Run], [RunPre], [RunPost]) *)

Module hooks_facts.
Import config scenarios.

Lemma tolerated_count_cons hook out (l : list (Hook.t * error)) :
  length (filter (λ ho, tolerated ho) ((hook, out) :: l))
  = ((if tolerated (hook, out) then 1 else 0)
     + length (filter (λ ho, tolerated ho) l))%nat.
Proof.
  rewrite filter_cons. case_decide as Ht; cbv beta in Ht;
    destruct (tolerated (hook, out)); done.
Qed.

Section chains.
Variable World : Type.
Variable command_Run : RunOptions.t → World → error * World.
Variable ToSnake : string → string.

Local Abbreviation Hook_Run := (config.Hook_Run World command_Run ToSnake).
Local Abbreviation RunPre_loop := (config.RunPre_loop World command_Run ToSnake).
Local Abbreviation RunPost_loop := (config.RunPost_loop World command_Run ToSnake).
Local Abbreviation invocation := (config.invocation ToSnake).

Lemma Hook_Run_dry h opts w :
  HookRunOptions.DryRun opts = true → Hook_Run h opts w = (None, w, []).
Proof. intros Hd. unfold config.Hook_Run. by rewrite Hd. Qed.

Lemma Hook_Run_live h opts w :
  HookRunOptions.DryRun opts = false →
  Hook_Run h opts w =
    let o := Hook_RunOptions ToSnake h opts in
    let '(err, w') := command_Run o w in
    (err, w', [LogInfo "running hook" (Hook_loggerArgs ToSnake h opts);
               CommandRun o err]).
Proof.
  intros Hd. unfold config.Hook_Run. rewrite Hd.
  unfold bind, emit, call_command_Run. simpl.
  by destruct (command_Run _ w) as [err w'].
Qed.

Lemma RunPre_loop_dry opts hooks w :
  HooksRunOptions.DryRun opts = true → RunPre_loop opts hooks w = (None, w, []).
Proof.
  intros Hd. induction hooks as [|hook rest IH]; [done|].
  simpl. unfold bind at 1. rewrite Hook_Run_dry by done. by rewrite IH.
Qed.

Lemma RunPost_loop_dry opts hooks w :
  HooksRunOptions.DryRun opts = true → RunPost_loop opts hooks w = (tt, w, []).
Proof.
  intros Hd. induction hooks as [|hook rest IH]; [done|].
  simpl. unfold bind at 1. rewrite Hook_Run_dry by done. by rewrite IH.
Qed.

(** One turn of the pre-hook loop when commands are really run. *)
Lemma RunPre_loop_cons opts hook rest w :
  HooksRunOptions.DryRun opts = false →
  RunPre_loop opts (hook :: rest) w =
    let o := invocation "pre" opts hook in
    let info := LogInfo "running hook"
                  (Hook_loggerArgs ToSnake hook (Hooks_HookRunOptions "pre" opts)) in
    let '(err, w1) := command_Run o w in
    match err with
    | Some e =>
        if Hook.MustSucceed hook then (Some e, w1, [info; CommandRun o (Some e)])
        else
          let '(r, w2, t) := RunPre_loop opts rest w1 in
          (r, w2, info :: CommandRun o (Some e)
                    :: LogError "hook failed" (Hooks_loggerArgs "pre" opts) :: t)
    | None =>
        let '(r, w2, t) := RunPre_loop opts rest w1 in
        (r, w2, info :: CommandRun o None :: t)
    end.
Proof.
  intros Hd. simpl. unfold bind at 1.
  rewrite Hook_Run_live by done. unfold config.invocation. simpl.
  destruct (command_Run _ w) as [[e|] w1]; simpl.
  - destruct (Hook.MustSucceed hook); simpl; [done|].
    unfold bind, emit. simpl.
    by destruct (config.RunPre_loop _ _ _ opts rest w1) as [[r w2] t].
  - by destruct (config.RunPre_loop _ _ _ opts rest w1) as [[r w2] t].
Qed.

(** One turn of the post-hook loop when commands are really run. *)
Lemma RunPost_loop_cons opts hook rest w :
  HooksRunOptions.DryRun opts = false →
  RunPost_loop opts (hook :: rest) w =
    let o := invocation "post" opts hook in
    let info := LogInfo "running hook"
                  (Hook_loggerArgs ToSnake hook (Hooks_HookRunOptions "post" opts)) in
    let '(err, w1) := command_Run o w in
    let '(r, w2, t) := RunPost_loop opts rest w1 in
    match err with
    | Some e =>
        (r, w2, info :: CommandRun o (Some e)
                  :: LogError "hook failed" (Hooks_loggerArgs "post" opts) :: t)
    | None => (r, w2, info :: CommandRun o None :: t)
    end.
Proof.
  intros Hd. simpl. unfold bind at 1.
  rewrite Hook_Run_live by done. unfold config.invocation. simpl.
  destruct (command_Run _ w) as [[e|] w1]; simpl.
  - unfold bind, emit. simpl.
    by destruct (config.RunPost_loop _ _ _ opts rest w1) as [[r w2] t].
  - by destruct (config.RunPost_loop _ _ _ opts rest w1) as [[r w2] t].
Qed.

(** [C4] Whatever the hook (command, arguments, must_succeed flag) and
    whatever the other options, [Hook.Run] with [DryRun = true] returns
    [nil], leaves the world as it was and performs no effect: the
    command runner is not called, so no subprocess is spawned. *)
Theorem Hook_Run_dry_run_spawns_nothing (h : Hook.t) (hookType : string)
    (loggerArgs : list any) (w : World) :
  config.Hook_Run World command_Run ToSnake h
    {| HookRunOptions.HookType := hookType;
       HookRunOptions.DryRun := true;
       HookRunOptions.LoggerArgs := loggerArgs |} w
  = (None, w, []).
Proof. by apply Hook_Run_dry. Qed.



End chains.

(** A tolerated failure first, then the veto of [guard]: [announce] is
    never run. *)
Example RunPre_veto :
  let out := Hooks_RunPre nat scripted_Run id
               (Hooks.mk [warm_up; guard; announce] []) live 0%nat in
  out.1 = (Some "exit status 1"%string, 2%nat) ∧
  (RunOptions.Name <$> (command_runs out.2).*1)
    = ["pre-hook warm up"; "pre-hook guard"]%string ∧
  length (logged_errors out.2) = 1%nat.
Proof. by vm_compute. Qed.

(** The same hooks as post-hooks: all three are run. *)
Example RunPost_all :
  let out := Hooks_RunPost nat scripted_Run id
               (Hooks.mk [] [warm_up; guard; announce]) live 0%nat in
  out.1 = (tt, 3%nat) ∧
  (RunOptions.Name <$> (command_runs out.2).*1)
    = ["post-hook warm up"; "post-hook guard"; "post-hook announce"]%string ∧
  length (logged_errors out.2) = 2%nat.
Proof. by vm_compute. Qed.

End hooks_facts.

(** ** Validation and defaults of the failover section *)

Module failover_facts.
Import config scenarios.

Section validate.
Variable parses_as_IPv4 : string → bool.

Local Abbreviation Validate := (Failover_Validate parses_as_IPv4).

Lemma one_peer_ranges : ranges one_peer (map_to_list one_peer).
Proof. unfold ranges. done. Qed.

(** A zero poll interval is rejected. *)
Lemma Validate_zero_poll f visit :
  Failover.PollIntervalDuration f = 0 →
  Validate f visit
  = Some "failover.poll_interval_duration must be greater than zero"%string.
Proof.
  intros H0. unfold Failover_Validate.
  by rewrite bool_decide_eq_true_2.
Qed.

(** A leaderless threshold that is zero or negative is rejected. *)
Lemma Validate_nonpositive_leaderless f visit :
  Failover.LeaderlessThresholdDuration f ≤ 0 → is_Some (Validate f visit).
Proof.
  intros Hle. unfold Failover_Validate.
  destruct (bool_decide (Failover.PollIntervalDuration f = 0)); simpl; [eauto|].
  rewrite bool_decide_eq_true_2 by done. simpl. eauto.
Qed.

(** Once the poll interval is not zero its value plays no part in the
    verdict: a negative interval is judged like the default of 5s. *)
Lemma Validate_nonzero_poll_as_default f visit :
  Failover.PollIntervalDuration f ≠ 0 →
  Validate f visit = Validate (Failover_set_PollIntervalDuration f (5 * Second)) visit.
Proof.
  intros Hnz. unfold Failover_Validate. simpl.
  by rewrite bool_decide_eq_false_2.
Qed.

(** The well-formed configuration passes. *)
Lemma Validate_sound :
  parses_as_IPv4 "10.0.0.1" = true →
  Validate sound (map_to_list one_peer) = None.
Proof. intros Hip. vm_compute. by rewrite Hip. Qed.

(** [C6] (defect) A negative [poll_interval_duration] passes validation:
    the configuration [negative_poll], whose poll interval is -5s and
    which is otherwise well formed, is accepted.  The check compares
    the poll interval with zero for equality only, whereas the message
    it would return, the comment above it and the check of the
    leaderless threshold all say "greater than zero". *)
Theorem Failover_Validate_accepts_negative_poll_interval :
  parses_as_IPv4 "10.0.0.1" = true →
  Failover.PollIntervalDuration negative_poll < 0 ∧
  Validate negative_poll (map_to_list one_peer) = None.
Proof. intros Hip. split; [done|]. vm_compute. by rewrite Hip. Qed.

(** [C3] (defect) A post-hook with [must_succeed = true] passes
    [Failover.Validate]: the configuration [post_must_succeed] is
    accepted, although [Hooks.Validate] applied to the hooks of its
    active role rejects that very hook.  [Failover.Validate] checks hook
    names and commands itself and never consults [Hook.Validate]. *)
Theorem Failover_Validate_accepts_post_hook_must_succeed :
  parses_as_IPv4 "10.0.0.1" = true →
  Validate post_must_succeed (map_to_list one_peer) = None ∧
  Hooks_Validate (Role.Hooks (Failover.Active post_must_succeed))
  = Some "hooks.post[0]: hook must_succeed not allowed for post hooks"%string.
Proof. intros Hip. split; [|done]. vm_compute. by rewrite Hip. Qed.

(** Validation never looks at [takeover_jitter_seconds]. *)
Lemma Validate_ignores_jitter f v visit :
  Validate (Failover_set_TakeoverJitterSeconds f v) visit = Validate f visit.
Proof. done. Qed.

End validate.

Lemma Failover_Validate_accepts_negative_poll_interval_witness :
  Failover.PollIntervalDuration negative_poll < 0 ∧
  Failover_Validate (λ _, true) negative_poll (map_to_list one_peer) = None.
Proof.
  by apply (Failover_Validate_accepts_negative_poll_interval (λ _, true)).
Defined.

Lemma Failover_Validate_accepts_post_hook_must_succeed_witness :
  Failover_Validate (λ _, true) post_must_succeed (map_to_list one_peer) = None ∧
  Hooks_Validate (Role.Hooks (Failover.Active post_must_succeed))
  = Some "hooks.post[0]: hook must_succeed not allowed for post hooks"%string.
Proof.
  by apply (Failover_Validate_accepts_post_hook_must_succeed (λ _, true)).
Defined.

(** [SetDefaults] does not preserve a configured jitter of zero: in
    [zero_jitter] the field holds the configured value [0], and after
    [SetDefaults] it holds [3]. *)
Lemma Failover_SetDefaults_overrides_explicit_zero :
  Failover.TakeoverJitterSeconds zero_jitter = 0 ∧
  Failover.TakeoverJitterSeconds (Failover_SetDefaults zero_jitter) = 3.
Proof. split; reflexivity. Qed.

(** [C7] (amended) [SetDefaults] treats the value zero as "not set": a
    non-zero [takeover_jitter_seconds] is preserved and a zero one,
    whether the key was absent or written as [0], becomes [3]; likewise a
    zero [poll_interval_duration] becomes 5s and a zero
    [leaderless_threshold_duration] becomes 15s, non-zero values being
    preserved.  Validation accepts any value of
    [takeover_jitter_seconds], as it never inspects it. *)
Theorem Failover_SetDefaults_zero_means_unset (f : Failover.t) :
  let f' := Failover_SetDefaults f in
  (Failover.TakeoverJitterSeconds f ≠ 0 →
     Failover.TakeoverJitterSeconds f' = Failover.TakeoverJitterSeconds f) ∧
  (Failover.TakeoverJitterSeconds f = 0 → Failover.TakeoverJitterSeconds f' = 3) ∧
  (Failover.PollIntervalDuration f ≠ 0 →
     Failover.PollIntervalDuration f' = Failover.PollIntervalDuration f) ∧
  (Failover.PollIntervalDuration f = 0 →
     Failover.PollIntervalDuration f' = 5 * Second) ∧
  (Failover.LeaderlessThresholdDuration f ≠ 0 →
     Failover.LeaderlessThresholdDuration f' = Failover.LeaderlessThresholdDuration f) ∧
  (Failover.LeaderlessThresholdDuration f = 0 →
     Failover.LeaderlessThresholdDuration f' = 15 * Second) ∧
  (∀ parses_as_IPv4 v visit,
     Failover_Validate parses_as_IPv4 (Failover_set_TakeoverJitterSeconds f v) visit
     = Failover_Validate parses_as_IPv4 f visit).
Proof.
  simpl. repeat split; try done; intros H.
  all: first [ by rewrite bool_decide_eq_false_2 by done
             | by rewrite bool_decide_eq_true_2 by done ].
Qed.

Example SetDefaults_negative_jitter :
  Failover.TakeoverJitterSeconds
    (Failover_SetDefaults (Failover_set_TakeoverJitterSeconds sound (-2))) = -2.
Proof. reflexivity. Qed.

End failover_facts.

(** ** Defaults of the notifications section *)

Module notifications_facts.
Import config scenarios.

(** [C10] Whatever the notification configuration was before, after
    [SetDefaults] all thirteen event flags, [startup] through
    [peer_lost], are true; the other defaults of the same function only
    fill fields that are empty and keep every non-empty value. *)
Theorem NotificationConfig_SetDefaults_enables_every_event
    (n : NotificationConfig.t) :
  let n' := NotificationConfig_SetDefaults n in
  NotificationConfig.Events n'
  = NotificationEvents.mk true true true true true true true
                          true true true true true true ∧
  (∀ s, s ≠ ""%string →
     (TelegramConfig.ParseMode (NotificationConfig.Telegram n) = s →
        TelegramConfig.ParseMode (NotificationConfig.Telegram n') = s) ∧
     (DiscordConfig.Username (NotificationConfig.Discord n) = s →
        DiscordConfig.Username (NotificationConfig.Discord n') = s) ∧
     (SlackConfig.Username (NotificationConfig.Slack n) = s →
        SlackConfig.Username (NotificationConfig.Slack n') = s) ∧
     (SlackConfig.IconEmoji (NotificationConfig.Slack n) = s →
        SlackConfig.IconEmoji (NotificationConfig.Slack n') = s)) ∧
  (TelegramConfig.ParseMode (NotificationConfig.Telegram n) = ""%string →
     TelegramConfig.ParseMode (NotificationConfig.Telegram n') = "HTML"%string) ∧
  (DiscordConfig.Username (NotificationConfig.Discord n) = ""%string →
     DiscordConfig.Username (NotificationConfig.Discord n') = "Solana HA Bot"%string) ∧
  (SlackConfig.Username (NotificationConfig.Slack n) = ""%string →
     SlackConfig.Username (NotificationConfig.Slack n') = "Solana HA Bot"%string) ∧
  (SlackConfig.IconEmoji (NotificationConfig.Slack n) = ""%string →
     SlackConfig.IconEmoji (NotificationConfig.Slack n') = ":robot_face:"%string).
Proof.
  simpl. unfold default_if_empty. split; [done|]. split.
  - intros s Hs. repeat split; intros ->; by rewrite bool_decide_eq_false_2.
  - repeat split; intros ->; done.
Qed.

Example SetDefaults_quiet :
  let n' := NotificationConfig_SetDefaults quiet in
  NotificationEvents.Startup (NotificationConfig.Events n') = true ∧
  NotificationEvents.PeerLost (NotificationConfig.Events n') = true ∧
  DiscordConfig.Username (NotificationConfig.Discord n') = "ops"%string ∧
  TelegramConfig.ParseMode (NotificationConfig.Telegram n') = "Markdown"%string ∧
  SlackConfig.Username (NotificationConfig.Slack n') = "Solana HA Bot"%string.
Proof. by vm_compute. Qed.

End notifications_facts.

(** ** Notification fan-out ([Manager.Notify]) *)

Module notify_facts.
Import notify scenarios.

(** The loop calls [Send] on exactly the enabled notifiers, in order,
    always with the context it was given and never before the instant it
    was entered; each failed call is logged. *)
Lemma Notify_loop_dispatches ctx event notifiers : ∀ now,
  let effects := (Notify_loop ctx event now notifiers).2 in
  Dispatch.to <$> sends effects
    = filter (λ n, Notifier.IsEnabled n) notifiers ∧
  logged_failures effects
    = omap (failure_record (Event.Type_ event)) (sends effects) ∧
  Forall (λ d, Dispatch.ctx d = ctx ∧ now ≤ Dispatch.began d) (sends effects) ∧
  (∀ d, head (sends effects) = Some d → Dispatch.began d = now).
Proof.
  induction notifiers as [|n rest IH]; intros now; cbv zeta.
  { simpl. repeat split; try done. }
  rewrite filter_cons. simpl.
  destruct (Notifier.IsEnabled n) eqn:Hen; simpl.
  - destruct (Notifier.Send n ctx event now) as [err took].
    specialize (IH (now + Z.of_N took)). cbv zeta in IH.
    destruct (Notify_loop ctx event (now + Z.of_N took) rest) as [finish effects].
    destruct IH as (IHa & IHb & IHc & IHd).
    assert (Forall (λ d, Dispatch.ctx d = ctx ∧ now ≤ Dispatch.began d)
              (sends effects)) as Hlater.
    { eapply Forall_impl; [exact IHc|]. simpl. intros d [? ?]. split; [done|lia]. }
    destruct err as [e|]; simpl in *.
    + split; [f_equal; exact IHa|]. split; [f_equal; exact IHb|].
      split; [|by intros d [= <-]].
      constructor; [split; [done|simpl; lia]|exact Hlater].
    + split; [f_equal; exact IHa|]. split; [exact IHb|].
      split; [|by intros d [= <-]].
      constructor; [split; [done|simpl; lia]|exact Hlater].
  - apply IH.
Qed.

Example Notify_three_sinks :
  let effects := (Notify three_sinks started 0).2 in
  Notifier.Name ∘ Dispatch.to <$> sends effects = ["discord"; "slack"]%string ∧
  Dispatch.began <$> sends effects = [0; 4 * config.Second] ∧
  Context.Deadline ∘ Dispatch.ctx <$> sends effects
    = [10 * config.Second; 10 * config.Second] ∧
  length (logged_failures effects) = 1%nat.
Proof. by vm_compute. Qed.



(** [C9] When the manager is enabled and the event passes the filter,
    [Notify] calls [Send] on every enabled notifier, in registration
    order, whatever the earlier calls returned: the notifiers dispatched
    to are determined by the list alone.  [Notify] has no result, so a
    failing sink cannot make it fail; every failure is logged, once. *)
Theorem Notify_failure_does_not_stop_fan_out
    (m : Manager.t) (event : Event.t) (now : Time) :
  Manager.enabled m = true →
  isEventEnabled m (Event.Type_ event) = true →
  let effects := (Notify m event now).2 in
  Dispatch.to <$> sends effects
    = filter (λ n, Notifier.IsEnabled n) (Manager.notifiers m) ∧
  logged_failures effects
    = omap (failure_record (Event.Type_ event)) (sends effects).
Proof.
  intros Hen Hev. cbv zeta. unfold Notify. rewrite Hen, Hev. simpl.
  match goal with
  | |- context [Notify_loop ?c ?e now ?ns] =>
      destruct (Notify_loop_dispatches c e ns now) as (Hto & Hlog & _ & _)
  end.
  cbv zeta in Hto, Hlog. split; [exact Hto|].
  rewrite Hlog. by destruct (bool_decide (Event.Timestamp event = 0)).
Qed.

Lemma Notify_failure_does_not_stop_fan_out_witness :
  Manager.enabled three_sinks = true ∧
  isEventEnabled three_sinks (Event.Type_ started) = true ∧
  Dispatch.to <$> sends (Notify three_sinks started 0).2
    = filter (λ n, Notifier.IsEnabled n) (Manager.notifiers three_sinks).
Proof.
  split; [reflexivity|]. split; [reflexivity|].
  apply (Notify_failure_does_not_stop_fan_out three_sinks started 0);
    reflexivity.
Defined.

End notify_facts.

(** ** More on the peer registry ([HasIP], [Add], [GetIPs], repeated addresses) *)

Module peers_more.
Import gostring gostring_facts config scenarios peers_facts.

Lemma HasIP_elem_of visit ip :
  HasIP visit ip = true ↔ ip ∈ (λ e : string * Peer.t, Peer.IP e.2) <$> visit.
Proof.
  induction visit as [|[name peer] rest IH]; simpl.
  - split; [done|]. by intros ?%elem_of_nil.
  - rewrite elem_of_cons. case_decide as Heq; simpl in *.
    + split; [by left|done].
    + rewrite IH. split; [by right|]. by intros [?|?].
Qed.

(** The loop assigns to every address it meets the position of its last
    occurrence. *)
Lemma rank_loop_position ips : ∀ k (m : gmap string Z) ip r,
  rank_loop k ips m !! ip = Some r →
  (∃ i : nat, ips !! i = Some ip ∧ r = k + Z.of_nat i + 1) ∨
  ((ip ∉ ips) ∧ m !! ip = Some r).
Proof.
  induction ips as [|x ips IH]; intros k m ip r Hr; simpl in *.
  - right. split; [by intros ?%elem_of_nil|done].
  - apply IH in Hr as [(i & Hi & ->)|[Hnin Hr]].
    + left. exists (S i). split; [done|lia].
    + destruct (decide (x = ip)) as [->|Hne].
      * rewrite lookup_insert_eq in Hr. injection Hr as <-.
        left. exists 0%nat. split; [done|lia].
      * rewrite lookup_insert_ne in Hr by done. right. split; [|done].
        by intros [?|?]%elem_of_cons.
Qed.

Lemma rank_loop_dom ips : ∀ k (m : gmap string Z),
  dom (rank_loop k ips m) = list_to_set ips ∪ dom m.
Proof.
  induction ips as [|x ips IH]; intros k m; simpl.
  - set_solver.
  - rewrite IH, dom_insert_L. set_solver.
Qed.

Lemma sorted_lookup_le (s : list string) i j a b :
  StronglySorted le s →
  s !! i = Some a → s !! j = Some b → (i < j)%nat → le a b.
Proof.
  intros Hs. revert i j. induction Hs as [|x s Hs IH Hall]; intros i j Hi Hj Hij.
  - done.
  - destruct j as [|j]; [lia|]. simpl in Hj.
    destruct i as [|i]; simpl in Hi.
    + injection Hi as ->. rewrite Forall_forall in Hall. apply Hall.
      by eapply list_elem_of_lookup_2.
    + eapply IH; eauto. lia.
Qed.

Lemma size_list_to_set_le (l : list string) :
  (size (list_to_set l : gset string) ≤ length l)%nat.
Proof.
  induction l as [|x l IH].
  - by rewrite list_to_set_nil, size_empty.
  - rewrite list_to_set_cons. simpl.
    destruct (decide (x ∈ (list_to_set l : gset string))) as [Hin|Hnin].
    + replace ({[x]} ∪ list_to_set l : gset string) with (list_to_set l : gset string)
        by set_solver. lia.
    + rewrite size_union by set_solver. rewrite size_singleton. lia.
Qed.

Lemma size_list_to_set_NoDup (l : list string) :
  size (list_to_set l : gset string) = length l ↔ NoDup l.
Proof.
  split; [|apply size_list_to_set].
  induction l as [|x l IH]; intros Hsize; [constructor|].
  rewrite list_to_set_cons in Hsize. simpl in Hsize.
  destruct (decide (x ∈ (list_to_set l : gset string))) as [Hin|Hnin].
  - replace ({[x]} ∪ list_to_set l : gset string) with (list_to_set l : gset string)
      in Hsize by set_solver.
    pose proof (size_list_to_set_le l). lia.
  - rewrite size_union in Hsize by set_solver. rewrite size_singleton in Hsize.
    constructor; [set_solver|]. apply IH. lia.
Qed.

(** [X1] Whatever order the map is ranged over, [HasIP] answers true
    exactly for the addresses that some configured peer carries. *)
Theorem HasIP_iff_configured (p : Peers) visit ip :
  ranges p visit → (HasIP visit ip = true ↔ configured p ip).
Proof.
  intros Hv. rewrite HasIP_elem_of, (configured_elem_of p visit ip Hv).
  by rewrite GetIPs_fmap.
Qed.

Lemma HasIP_iff_configured_witness :
  ranges two_peers (map_to_list two_peers) ∧
  (HasIP (map_to_list two_peers) "10.0.0.2" = true ↔ configured two_peers "10.0.0.2").
Proof.
  assert (ranges two_peers (map_to_list two_peers)) as Hr by (unfold ranges; reflexivity).
  split; [exact Hr|]. exact (HasIP_iff_configured two_peers _ "10.0.0.2" Hr).
Defined.



(** [X3] [GetIPs] returns one address per peer: its length is the number
    of peers, it holds exactly the configured addresses, and two
    iteration orders of the same map give the same addresses up to their
    order. *)
Theorem GetIPs_one_per_peer (p : Peers) visit :
  ranges p visit →
  length (GetIPs visit) = size p ∧
  (∀ ip, ip ∈ GetIPs visit ↔ configured p ip) ∧
  (∀ visit', ranges p visit' → GetIPs visit' ≡ₚ GetIPs visit).
Proof.
  intros Hv. split; [by apply GetIPs_length|]. split.
  - intros ip. symmetry. by apply configured_elem_of.
  - intros visit' Hv'. rewrite !GetIPs_fmap. unfold ranges in *.
    by rewrite Hv, Hv'.
Qed.

Lemma GetIPs_one_per_peer_witness :
  ranges two_peers (map_to_list two_peers) ∧
  length (GetIPs (map_to_list two_peers)) = size two_peers.
Proof.
  assert (ranges two_peers (map_to_list two_peers)) as Hr by (unfold ranges; reflexivity).
  split; [exact Hr|]. apply (GetIPs_one_per_peer two_peers _ Hr).
Defined.

(** [X4] Also when peers share an address, and for every iteration order,
    [GetRankedIPs] ranks exactly the configured addresses, with ranks in
    [1..N], no rank given twice and a lexicographically smaller address
    ranked strictly lower; but it then has fewer than [N] entries: the
    ranks fill [1..N] exactly when the addresses are pairwise distinct. *)
Theorem GetRankedIPs_with_repeated_IPs (p : Peers) visit :
  ranges p visit →
  let ranked := GetRankedIPs visit in
  let N := Z.of_nat (size p) in
  (∀ ip, is_Some (ranked !! ip) ↔ configured p ip) ∧
  (∀ ip r, ranked !! ip = Some r → 1 ≤ r ≤ N) ∧
  (∀ ip1 ip2 r, ranked !! ip1 = Some r → ranked !! ip2 = Some r → ip1 = ip2) ∧
  (∀ ip1 ip2 r1 r2, ranked !! ip1 = Some r1 → ranked !! ip2 = Some r2 →
     gostring.lt ip1 ip2 → r1 < r2) ∧
  (size ranked ≤ size p)%nat ∧
  (size ranked = size p ↔ distinct_IPs p).
Proof.
  intros Hv ranked N. subst ranked N. unfold GetRankedIPs.
  set (s := sort_Strings (GetIPs visit)).
  assert (s ≡ₚ GetIPs visit) as Hperm by apply sort_Strings_perm.
  assert (StronglySorted gostring.le s) as Hs by apply sort_Strings_sorted.
  assert (length s = size p) as Hlen.
  { rewrite Hperm. by apply GetIPs_length. }
  assert (∀ ip r, rank_loop 0 s ∅ !! ip = Some r →
            ∃ i : nat, s !! i = Some ip ∧ r = Z.of_nat i + 1) as Hpos.
  { intros ip r Hr. apply rank_loop_position in Hr as [(i & Hi & ->)|[_ Hr]].
    - exists i. split; [done|lia].
    - by rewrite lookup_empty in Hr. }
  assert (dom (rank_loop 0 s ∅) = (list_to_set s : gset string)) as Hdom.
  { rewrite rank_loop_dom. set_solver. }
  split; [|split; [|split; [|split; [|split]]]].
  - intros ip. rewrite <- elem_of_dom, Hdom, elem_of_list_to_set, Hperm.
    symmetry. by apply configured_elem_of.
  - intros ip r Hr. apply Hpos in Hr as (i & Hi & ->).
    apply lookup_lt_Some in Hi. lia.
  - intros ip1 ip2 r H1 H2.
    apply Hpos in H1 as (i & Hi & ->). apply Hpos in H2 as (j & Hj & Hij).
    assert (i = j) as -> by lia. congruence.
  - intros ip1 ip2 r1 r2 H1 H2 Hlt.
    apply Hpos in H1 as (i & Hi & ->). apply Hpos in H2 as (j & Hj & ->).
    destruct (decide (i < j)%nat) as [|Hge]; [lia|]. exfalso.
    destruct (decide (i = j)) as [->|Hne].
    + assert (ip1 = ip2) as -> by congruence. by apply (lt_irrefl ip2).
    + assert (gostring.le ip2 ip1) as Hle
        by (apply (sorted_lookup_le s j i); auto; lia).
      apply le_lt_or_eq in Hle as [Hgt| ->].
      * by apply (lt_asym ip1 ip2).
      * by apply (lt_irrefl ip1).
  - rewrite <- Hlen, <- size_dom, Hdom. apply size_list_to_set_le.
  - rewrite <- Hlen, <- size_dom, Hdom, size_list_to_set_NoDup.
    rewrite Hperm, GetIPs_fmap. unfold ranges in Hv. rewrite Hv.
    symmetry. apply distinct_IPs_NoDup.
Qed.

Lemma GetRankedIPs_with_repeated_IPs_witness :
  ranges same_address (map_to_list same_address) ∧
  (size (GetRankedIPs (map_to_list same_address)) ≤ size same_address)%nat.
Proof.
  assert (ranges same_address (map_to_list same_address)) as Hr
    by (unfold ranges; reflexivity).
  split; [exact Hr|]. apply (GetRankedIPs_with_repeated_IPs same_address _ Hr).
Defined.

(** Three peers, two of which share an address: the ranks are 1 and 3. *)
Example GetRankedIPs_same_address :
  map_to_list (GetRankedIPs (map_to_list same_address))
  ≡ₚ [("10.0.0.1"%string, 1); ("10.0.0.2"%string, 3)].
Proof. vm_compute. apply perm_swap || reflexivity. Qed.

End peers_more.

(** ** More on validation and defaults of hooks and of the failover section *)

Module validate_more.
Import config scenarios peers_facts.

Lemma seq_nil (e k : error) :
  match e with Some msg => Some msg | None => k end = None ↔ e = None ∧ k = None.
Proof. destruct e; naive_solver. Qed.

Lemma fail_if_nil c msg : fail_if c msg = None ↔ c = false.
Proof. by destruct c. Qed.

Lemma Hook_Validate_nil hook allow :
  Hook_Validate hook allow = None ↔
  hook_named hook ∧ (allow = true ∨ Hook.MustSucceed hook = false).
Proof.
  unfold Hook_Validate, hook_named.
  rewrite !seq_nil, !fail_if_nil, !bool_decide_eq_false.
  destruct allow, (Hook.MustSucceed hook); naive_solver.
Qed.

Lemma Hooks_Validate_loop_nil kind allow hooks : ∀ k,
  Hooks_Validate_loop kind allow k hooks = None ↔
  Forall (λ hook, Hook_Validate hook allow = None) hooks.
Proof.
  induction hooks as [|hook rest IH]; intros k; simpl.
  - split; [constructor|done].
  - rewrite Forall_cons. destruct (Hook_Validate hook allow); [naive_solver|].
    rewrite IH. naive_solver.
Qed.

Lemma Hooks_Validate_loop_first kind allow hooks : ∀ k msg,
  Hooks_Validate_loop kind allow k hooks = Some msg →
  ∃ (i : nat) hook err,
    hooks !! i = Some hook ∧ Hook_Validate hook allow = Some err ∧
    msg = ("hooks." +:+ kind +:+ "[" +:+ pretty (k + i)%nat +:+ "]: " +:+ err) ∧
    ∀ (j : nat) hook', (j < i)%nat → hooks !! j = Some hook' →
      Hook_Validate hook' allow = None.
Proof.
  induction hooks as [|hook rest IH]; intros k msg Hmsg; simpl in *; [done|].
  destruct (Hook_Validate hook allow) as [err|] eqn:Hv.
  - injection Hmsg as <-. exists 0%nat, hook, err.
    rewrite Nat.add_0_r. repeat split; try done. lia.
  - apply IH in Hmsg as (i & hk & err & Hi & Herr & -> & Hfirst).
    exists (S i), hk, err. replace (k + S i)%nat with (S k + i)%nat by lia.
    repeat split; try done.
    intros [|j] hook' Hj Hh; simpl in *; [congruence|].
    eapply Hfirst; eauto. lia.
Qed.

Lemma Validate_hooks_nil what hooks :
  Validate_hooks what hooks = None ↔ Forall hook_named hooks.
Proof.
  induction hooks as [|hook rest IH]; simpl.
  - split; [constructor|done].
  - rewrite Forall_cons, !seq_nil, !fail_if_nil, !bool_decide_eq_false, IH.
    unfold hook_named. naive_solver.
Qed.

(** [X5] [Hooks.Validate] accepts exactly the hook sets in which every
    hook has a name and a command and no post-hook sets [must_succeed]. *)
Theorem Hooks_Validate_accepts_iff (h : Hooks.t) :
  Hooks_Validate h = None ↔
  Forall hook_named (Hooks.Pre h) ∧
  Forall (λ hook, hook_named hook ∧ Hook.MustSucceed hook = false) (Hooks.Post h).
Proof.
  unfold Hooks_Validate. rewrite !seq_nil, !Hooks_Validate_loop_nil.
  rewrite !Forall_forall.
  setoid_rewrite Hook_Validate_nil. naive_solver.
Qed.

(** [X6] An error of [Hooks.Validate] names the first invalid hook by its
    position: the first invalid pre-hook if there is one, and otherwise
    the first invalid post-hook; the text after the position is the error
    of [Hook.Validate] for that hook. *)
Theorem Hooks_Validate_reports_first_invalid (h : Hooks.t) (msg : string) :
  Hooks_Validate h = Some msg →
  (∃ (i : nat) hook err,
     Hooks.Pre h !! i = Some hook ∧ Hook_Validate hook true = Some err ∧
     msg = ("hooks.pre[" +:+ pretty i +:+ "]: " +:+ err) ∧
     ∀ (j : nat) hook', (j < i)%nat → Hooks.Pre h !! j = Some hook' →
       Hook_Validate hook' true = None) ∨
  (Forall (λ hook, Hook_Validate hook true = None) (Hooks.Pre h) ∧
   ∃ (i : nat) hook err,
     Hooks.Post h !! i = Some hook ∧ Hook_Validate hook false = Some err ∧
     msg = ("hooks.post[" +:+ pretty i +:+ "]: " +:+ err) ∧
     ∀ (j : nat) hook', (j < i)%nat → Hooks.Post h !! j = Some hook' →
       Hook_Validate hook' false = None).
Proof.
  unfold Hooks_Validate. intros Hmsg.
  destruct (Hooks_Validate_loop "pre" true 0 (Hooks.Pre h)) as [m|] eqn:Hpre.
  - injection Hmsg as <-. left.
    apply Hooks_Validate_loop_first in Hpre as (i & hook & err & ? & ? & -> & ?).
    by exists i, hook, err.
  - right. split; [by apply (Hooks_Validate_loop_nil "pre" true _ 0%nat)|].
    destruct (Hooks_Validate_loop "post" false 0 (Hooks.Post h)) as [m|] eqn:Hpost;
      [|done].
    injection Hmsg as <-.
    apply Hooks_Validate_loop_first in Hpost as (i & hook & err & ? & ? & -> & ?).
    by exists i, hook, err.
Qed.

Lemma Hooks_Validate_reports_first_invalid_witness :
  Hooks_Validate strict_post
  = Some "hooks.post[0]: hook must_succeed not allowed for post hooks"%string ∧
  ((∃ (i : nat) hook err,
      Hooks.Pre strict_post !! i = Some hook ∧ Hook_Validate hook true = Some err ∧
      "hooks.post[0]: hook must_succeed not allowed for post hooks"%string
      = ("hooks.pre[" +:+ pretty i +:+ "]: " +:+ err) ∧
      ∀ (j : nat) hook', (j < i)%nat → Hooks.Pre strict_post !! j = Some hook' →
        Hook_Validate hook' true = None) ∨
   (Forall (λ hook, Hook_Validate hook true = None) (Hooks.Pre strict_post) ∧
    ∃ (i : nat) hook err,
      Hooks.Post strict_post !! i = Some hook ∧ Hook_Validate hook false = Some err ∧
      "hooks.post[0]: hook must_succeed not allowed for post hooks"%string
      = ("hooks.post[" +:+ pretty i +:+ "]: " +:+ err) ∧
      ∀ (j : nat) hook', (j < i)%nat → Hooks.Post strict_post !! j = Some hook' →
        Hook_Validate hook' false = None)).
Proof.
  split; [reflexivity|].
  apply (Hooks_Validate_reports_first_invalid strict_post). reflexivity.
Defined.

Lemma Validate_peers_nil parses_as_IPv4 visit : ∀ ips : gmap string bool,
  Validate_peers parses_as_IPv4 visit ips = None ↔
  Forall (λ e : string * Peer.t,
            parses_as_IPv4 (Peer.IP e.2) = true ∧ ips !! Peer.IP e.2 ≠ Some true)
         visit ∧
  NoDup ((λ e : string * Peer.t, Peer.IP e.2) <$> visit).
Proof.
  induction visit as [|[name peer] rest IH]; intros ips; simpl.
  - split; [intros _; split; constructor|done].
  - rewrite !seq_nil, !fail_if_nil, negb_false_iff, IH, Forall_cons, NoDup_cons.
    simpl.
    assert (default false (ips !! Peer.IP peer) = false
            ↔ ips !! Peer.IP peer ≠ Some true) as ->.
    { destruct (ips !! Peer.IP peer) as [[]|]; naive_solver. }
    assert (Forall (λ e : string * Peer.t,
                      parses_as_IPv4 (Peer.IP e.2) = true
                      ∧ <[Peer.IP peer := true]> ips !! Peer.IP e.2 ≠ Some true) rest
            ↔ Forall (λ e : string * Peer.t,
                        parses_as_IPv4 (Peer.IP e.2) = true
                        ∧ ips !! Peer.IP e.2 ≠ Some true) rest
              ∧ Peer.IP peer ∉ (λ e : string * Peer.t, Peer.IP e.2) <$> rest) as ->.
    { rewrite !Forall_forall, list_elem_of_fmap. split.
      - intros Hall. split.
        + intros e He. destruct (Hall e He) as [? Hn]. split; [done|].
          destruct (decide (Peer.IP peer = Peer.IP e.2)) as [Heq|Hne].
          * rewrite <- Heq, lookup_insert_eq in Hn. done.
          * by rewrite lookup_insert_ne in Hn.
        + intros (e & Heq & He). destruct (Hall e He) as [_ Hn].
          rewrite <- Heq, lookup_insert_eq in Hn. done.
      - intros [Hall Hnin] e He. destruct (Hall e He). split; [done|].
        rewrite lookup_insert_ne; [done|]. intros Heq. apply Hnin. by exists e. }
    naive_solver.
Qed.

Lemma role_checks_nil (r : Role.t) what_cmd what_pre what_post (k : error) :
  (fail_if (bool_decide (Role.Command r = ""%string)) what_cmd ;;;
   Validate_hooks what_pre (Hooks.Pre (Role.Hooks r)) ;;;
   Validate_hooks what_post (Hooks.Post (Role.Hooks r)) ;;; k) = None
  ↔ role_ok r ∧ k = None.
Proof.
  unfold role_ok.
  rewrite !seq_nil, fail_if_nil, bool_decide_eq_false, !Validate_hooks_nil.
  naive_solver.
Qed.

Lemma peers_checks_nil parses_as_IPv4 (p : Peers) visit :
  ranges p visit →
  (fail_if (bool_decide (size p = 0%nat))
     "failover.peers - at least one peer must be defined" ;;;
   Validate_peers parses_as_IPv4 visit ∅) = None
  ↔ peers_ok parses_as_IPv4 p.
Proof.
  intros Hv. unfold peers_ok, ranges in *.
  rewrite seq_nil, fail_if_nil, bool_decide_eq_false, Validate_peers_nil.
  rewrite Hv, <- distinct_IPs_NoDup, Forall_forall.
  split.
  - intros (? & Hall & ?). repeat split; try done.
    intros name peer Hl. apply (Hall (name, peer)). by apply elem_of_map_to_list.
  - intros (? & Hall & ?). split; [done|]. split; [|done].
    intros [name peer] Hin. split; [|by rewrite lookup_empty].
    eapply Hall. by apply elem_of_map_to_list.
Qed.

(** What [Failover.Validate] accepts, for every order in which it ranges
    over the peers. *)
Lemma Failover_Validate_nil parses_as_IPv4 (f : Failover.t) visit :
  ranges (Failover.Peers f) visit →
  Failover_Validate parses_as_IPv4 f visit = None ↔
  Failover.PollIntervalDuration f ≠ 0 ∧
  0 < Failover.LeaderlessThresholdDuration f ∧
  role_ok (Failover.Active f) ∧ role_ok (Failover.Passive f) ∧
  peers_ok parses_as_IPv4 (Failover.Peers f).
Proof.
  intros Hv. unfold Failover_Validate.
  rewrite seq_nil, fail_if_nil, bool_decide_eq_false.
  rewrite seq_nil, fail_if_nil, bool_decide_eq_false.
  rewrite (role_checks_nil (Failover.Active f)).
  rewrite (role_checks_nil (Failover.Passive f)).
  rewrite (peers_checks_nil parses_as_IPv4 _ visit Hv).
  split; intros (Hp & Hl & Ha & Hpa & Hpe); (split; [done|]);
    (split; [lia|]); done.
Qed.

(** [X7] For every order in which the peers are ranged over,
    [Failover.Validate] returns [nil] exactly when the poll interval is
    not zero, the leaderless threshold is positive, both roles have a
    command and only hooks with a name and a command, and there is at
    least one peer, every peer address parses as IPv4 and no two peers
    share an address.  Whether a configuration is accepted therefore does
    not depend on the iteration order. *)
Theorem Failover_Validate_accepts_iff parses_as_IPv4 (f : Failover.t) visit :
  ranges (Failover.Peers f) visit →
  (Failover_Validate parses_as_IPv4 f visit = None ↔
   Failover.PollIntervalDuration f ≠ 0 ∧
   0 < Failover.LeaderlessThresholdDuration f ∧
   role_ok (Failover.Active f) ∧ role_ok (Failover.Passive f) ∧
   peers_ok parses_as_IPv4 (Failover.Peers f)) ∧
  (∀ visit', ranges (Failover.Peers f) visit' →
     (Failover_Validate parses_as_IPv4 f visit' = None
      ↔ Failover_Validate parses_as_IPv4 f visit = None)).
Proof.
  intros Hv. split; [by apply Failover_Validate_nil|].
  intros visit' Hv'. by rewrite !Failover_Validate_nil.
Qed.

Lemma Failover_Validate_accepts_iff_witness :
  ranges (Failover.Peers sound) (map_to_list one_peer) ∧
  (Failover_Validate (λ _, true) sound (map_to_list one_peer) = None ↔
   Failover.PollIntervalDuration sound ≠ 0 ∧
   0 < Failover.LeaderlessThresholdDuration sound ∧
   role_ok (Failover.Active sound) ∧ role_ok (Failover.Passive sound) ∧
   peers_ok (λ _, true) (Failover.Peers sound)).
Proof.
  assert (ranges (Failover.Peers sound) (map_to_list one_peer)) as Hr
    by (unfold ranges; reflexivity).
  split; [exact Hr|].
  apply (Failover_Validate_accepts_iff (λ _, true) sound _ Hr).
Defined.

(** [X8] [Failover.SetDefaults] is idempotent; it leaves no duration and
    no jitter at zero, names the roles "active" and "passive", and changes
    nothing else: the dry-run flag, the peers and the commands, arguments,
    environment and hooks of both roles are as before. *)
Theorem Failover_SetDefaults_idempotent (f : Failover.t) :
  let f' := Failover_SetDefaults f in
  Failover_SetDefaults f' = f' ∧
  Failover.PollIntervalDuration f' ≠ 0 ∧
  Failover.LeaderlessThresholdDuration f' ≠ 0 ∧
  Failover.TakeoverJitterSeconds f' ≠ 0 ∧
  Role.Name (Failover.Active f') = "active"%string ∧
  Role.Name (Failover.Passive f') = "passive"%string ∧
  Failover.DryRun f' = Failover.DryRun f ∧
  Failover.Peers f' = Failover.Peers f ∧
  Role_set_Name (Failover.Active f') (Role.Name (Failover.Active f)) = Failover.Active f ∧
  Role_set_Name (Failover.Passive f') (Role.Name (Failover.Passive f)) = Failover.Passive f.
Proof.
  destruct f as [dry poll ll jitter [an ac aa ae ah] [pn pc pa pe ph] peers].
  cbv zeta. unfold Failover_SetDefaults, Role_set_Name, Second. simpl.
  repeat split; try done.
  - f_equal; repeat case_bool_decide; try done; lia.
  - case_bool_decide; [done|lia].
  - case_bool_decide; [done|lia].
  - case_bool_decide; [done|lia].
Qed.

Lemma role_ok_set_Name (r : Role.t) name : role_ok (Role_set_Name r name) ↔ role_ok r.
Proof. done. Qed.

(** [X9] After [SetDefaults], [Failover.Validate] no longer objects to a
    duration that was left at zero: the defaulted configuration is
    accepted exactly when the leaderless threshold was not negative and
    the roles and peers are in order.  The poll interval plays no part,
    whatever its sign. *)
Theorem Failover_Validate_after_SetDefaults parses_as_IPv4 (f : Failover.t) visit :
  ranges (Failover.Peers f) visit →
  Failover_Validate parses_as_IPv4 (Failover_SetDefaults f) visit = None ↔
  0 ≤ Failover.LeaderlessThresholdDuration f ∧
  role_ok (Failover.Active f) ∧ role_ok (Failover.Passive f) ∧
  peers_ok parses_as_IPv4 (Failover.Peers f).
Proof.
  intros Hv. rewrite Failover_Validate_nil by done. simpl.
  rewrite !role_ok_set_Name. unfold Second.
  split.
  - intros (_ & Hl & Ha & Hp & Hpe). split; [|done].
    case_bool_decide; lia.
  - intros (Hl & Ha & Hp & Hpe). split; [|split; [|done]].
    + case_bool_decide; lia.
    + case_bool_decide; lia.
Qed.

Lemma Failover_Validate_after_SetDefaults_witness :
  ranges (Failover.Peers unset_timing) (map_to_list one_peer) ∧
  Failover_Validate (λ _, true) (Failover_SetDefaults unset_timing)
    (map_to_list one_peer) = None.
Proof.
  assert (ranges (Failover.Peers unset_timing) (map_to_list one_peer)) as Hr
    by (unfold ranges; reflexivity).
  split; [exact Hr|].
  apply (Failover_Validate_after_SetDefaults (λ _, true) unset_timing _ Hr).
  split; [done|]. split; [|split].
  - split; [done|]. split; constructor.
  - split; [done|]. split; constructor.
  - split; [by vm_compute|]. split; [done|].
    apply distinct_IPs_NoDup. apply (bool_decide_unpack _). by vm_compute.
Defined.

End validate_more.

(** ** Composition of hook chains *)

Module hooks_more.
Import config.

Section chains.
Variable World : Type.
Variable command_Run : RunOptions.t → World → error * World.
Variable ToSnake : string → string.

Local Abbreviation RunPre_loop := (config.RunPre_loop World command_Run ToSnake).
Local Abbreviation RunPost_loop := (config.RunPost_loop World command_Run ToSnake).

Lemma RunPre_loop_app opts hooks1 hooks2 : ∀ w,
  RunPre_loop opts (hooks1 ++ hooks2) w =
    let '(r, w1, t1) := RunPre_loop opts hooks1 w in
    match r with
    | Some e => (Some e, w1, t1)
    | None =>
        let '(r2, w2, t2) := RunPre_loop opts hooks2 w1 in (r2, w2, t1 ++ t2)
    end.
Proof.
  induction hooks1 as [|hook rest IH]; intros w; simpl.
  - unfold ret. by destruct (RunPre_loop opts hooks2 w) as [[r2 w2] t2].
  - unfold bind at 1 3.
    destruct (Hook_Run World command_Run ToSnake hook _ w) as [[err w1] t1].
    destruct err as [e|].
    + destruct (Hook.MustSucceed hook).
      * unfold ret. simpl. done.
      * unfold bind, emit. rewrite IH.
        destruct (RunPre_loop opts rest w1) as [[r w2] t2].
        destruct r as [e'|]; simpl; [done|].
        destruct (RunPre_loop opts hooks2 w2) as [[r3 w3] t3].
        by rewrite <- !app_assoc.
    + rewrite IH.
      destruct (RunPre_loop opts rest w1) as [[r w2] t2].
      destruct r as [e'|]; simpl; [done|].
      destruct (RunPre_loop opts hooks2 w2) as [[r3 w3] t3].
      by rewrite <- !app_assoc.
Qed.

Lemma RunPost_loop_app opts hooks1 hooks2 : ∀ w,
  RunPost_loop opts (hooks1 ++ hooks2) w =
    let '(_, w1, t1) := RunPost_loop opts hooks1 w in
    let '(_, w2, t2) := RunPost_loop opts hooks2 w1 in (tt, w2, t1 ++ t2).
Proof.
  induction hooks1 as [|hook rest IH]; intros w; simpl.
  - unfold ret. by destruct (RunPost_loop opts hooks2 w) as [[[] w2] t2].
  - unfold bind at 1 3.
    destruct (Hook_Run World command_Run ToSnake hook _ w) as [[err w1] t1].
    destruct err as [e|].
    + unfold bind, emit. rewrite IH.
      destruct (RunPost_loop opts rest w1) as [[r w2] t2].
      destruct (RunPost_loop opts hooks2 w2) as [[r3 w3] t3].
      by rewrite <- !app_assoc.
    + rewrite IH.
      destruct (RunPost_loop opts rest w1) as [[r w2] t2].
      destruct (RunPost_loop opts hooks2 w2) as [[r3 w3] t3].
      by rewrite <- !app_assoc.
Qed.

(** [X10] Hook chains compose.  Running the pre-hooks [pre1 ++ pre2] is
    running [pre1] and then, unless [pre1] was vetoed, [pre2] in the
    world that [pre1] left, with the effects concatenated; a veto in
    [pre1] is the result and nothing of [pre2] is run.  Running the
    post-hooks [post1 ++ post2] is running [post1] and then always
    [post2].  This holds in dry-run mode too. *)
Theorem hook_chains_compose (pre1 pre2 post1 post2 : list Hook.t)
    (opts : HooksRunOptions.t) (w : World) :
  Hooks_RunPre World command_Run ToSnake (Hooks.mk (pre1 ++ pre2) []) opts w =
    (let '(r, w1, t1) :=
       Hooks_RunPre World command_Run ToSnake (Hooks.mk pre1 []) opts w in
     match r with
     | Some e => (Some e, w1, t1)
     | None =>
         let '(r2, w2, t2) :=
           Hooks_RunPre World command_Run ToSnake (Hooks.mk pre2 []) opts w1 in
         (r2, w2, t1 ++ t2)
     end) ∧
  Hooks_RunPost World command_Run ToSnake (Hooks.mk [] (post1 ++ post2)) opts w =
    (let '(_, w1, t1) :=
       Hooks_RunPost World command_Run ToSnake (Hooks.mk [] post1) opts w in
     let '(_, w2, t2) :=
       Hooks_RunPost World command_Run ToSnake (Hooks.mk [] post2) opts w1 in
     (tt, w2, t1 ++ t2)).
Proof.
  unfold Hooks_RunPre, Hooks_RunPost. simpl.
  split; [apply RunPre_loop_app | apply RunPost_loop_app].
Qed.

End chains.
End hooks_more.

(** ** The Prometheus, log and notifications sections *)

Module config_more.
Import config scenarios validate_more.


Lemma logFormatters_lookup (format : string) :
  is_Some (logFormatters !! format) ↔ format ∈ ["text"; "json"; "logfmt"]%string.
Proof.
  unfold logFormatters.
  rewrite !lookup_insert_is_Some, lookup_empty, !elem_of_cons, elem_of_nil.
  split.
  - intros [?|[_ [?|[_ [?|[_ [? ?]]]]]]]; try done; auto.
  - intros [->|[->|[->|[]]]].
    + by left.
    + right. split; [done|]. by left.
    + right. split; [done|]. right. split; [done|]. by left.
Qed.

Section log.
Variable Level : Type.
Variable ParseLevel : string → Level * error.

Lemma Log_Validate_accepts_iff_aux (l : Log Level) :
  ((Log_Validate ParseLevel l).2 = None ↔
   (ParseLevel (Log_Level l)).2 = None ∧
   Log_Format l ∈ ["text"; "json"; "logfmt"]%string) ∧
  Log_Level (Log_Validate ParseLevel l).1 = Log_Level l.
Proof.
  unfold Log_Validate. rewrite <- logFormatters_lookup.
  destruct (ParseLevel (Log_Level l)) as [parsed [e|]]; simpl.
  - repeat split; naive_solver.
  - destruct (logFormatters !! Log_Format l) as [fmt|] eqn:Hf; simpl;
      repeat split; naive_solver.
Qed.

(** [X12] [Log.Validate] succeeds exactly when the level parses and the
    format is one of "text", "json" and "logfmt".  It never changes the
    two strings; on success the parsed level is the library's and the
    parsed formatter is the table's entry for the format.  When the
    level does not parse, the formatter is left as it was. *)
Theorem Log_Validate_accepts_iff (l : Log Level) :
  let out := Log_Validate ParseLevel l in
  (out.2 = None ↔
   (ParseLevel (Log_Level l)).2 = None ∧
   Log_Format l ∈ ["text"; "json"; "logfmt"]%string) ∧
  Log_Level out.1 = Log_Level l ∧ Log_Format out.1 = Log_Format l ∧
  Log_ParsedLevel out.1 = (ParseLevel (Log_Level l)).1 ∧
  (out.2 = None →
   logFormatters !! Log_Format l = Some (Log_ParsedFormatter out.1)) ∧
  ((ParseLevel (Log_Level l)).2 ≠ None →
   Log_ParsedFormatter out.1 = Log_ParsedFormatter l).
Proof.
  cbv zeta. unfold Log_Validate. rewrite <- logFormatters_lookup.
  destruct (ParseLevel (Log_Level l)) as [parsed [e|]]; simpl.
  - repeat split; naive_solver.
  - destruct (logFormatters !! Log_Format l) as [fmt|] eqn:Hf; simpl;
      repeat split; naive_solver.
Qed.

(** [X13] Defaults and overrides keep a valid log section valid.  After
    [SetDefaults], which fills an empty level with "info" and an empty
    format with "text", validation succeeds exactly when the level (or
    "info" in its place) parses and the format was empty or one of the
    three names.  [SetLevelString] stores a level that parses, and
    leaves the section untouched, reporting the fact, when it does not:
    a level that parsed before still parses afterwards. *)
Theorem Log_defaults_and_overrides (l : Log Level) (logLevel : string) :
  ((Log_Validate ParseLevel (Log_SetDefaults l)).2 = None ↔
   (ParseLevel (if bool_decide (Log_Level l = ""%string)
                then "info"%string else Log_Level l)).2 = None ∧
   Log_Format l ∈ [""; "text"; "json"; "logfmt"]%string) ∧
  Log_SetDefaults (Log_SetDefaults l) = Log_SetDefaults l ∧
  (let out := Log_SetLevelString ParseLevel l logLevel in
   (out.2 = true ↔ (ParseLevel logLevel).2 ≠ None) ∧
   (out.2 = true → out.1 = l) ∧
   (out.2 = false → Log_Level out.1 = logLevel ∧ Log_Format out.1 = Log_Format l) ∧
   ((ParseLevel (Log_Level l)).2 = None →
    (ParseLevel (Log_Level out.1)).2 = None)).
Proof.
  split; [|split].
  - destruct (Log_Validate_accepts_iff_aux (Log_SetDefaults l)) as [-> _].
    simpl. rewrite !elem_of_cons, !elem_of_nil.
    destruct (decide (Log_Format l = ""%string)) as [Hf|Hf].
    + rewrite !(bool_decide_eq_true_2 (Log_Format l = ""%string)) by done.
      naive_solver.
    + rewrite !(bool_decide_eq_false_2 (Log_Format l = ""%string)) by done.
      naive_solver.
  - destruct l as [lv fm pl pf]. unfold Log_SetDefaults. simpl.
    f_equal; repeat case_bool_decide; done.
  - cbv zeta. unfold Log_SetLevelString.
    destruct (ParseLevel logLevel) as [parsed [e|]] eqn:Hp; simpl.
    + repeat split; naive_solver.
    + rewrite Hp. repeat split; naive_solver.
Qed.

End log.
Lemma when_nil (enabled : bool) (check : error) :
  when enabled check = None ↔ (enabled = true → check = None).
Proof. destruct enabled; naive_solver. Qed.

Lemma one_of_two_nil (a b msg : string) :
  fail_if (bool_decide (a = ""%string) && bool_decide (b = ""%string)) msg = None
  ↔ a ≠ ""%string ∨ b ≠ ""%string.
Proof.
  rewrite fail_if_nil. repeat case_bool_decide; naive_solver.
Qed.

Lemma discord_check_nil (dc : DiscordConfig.t) msg :
  when (DiscordConfig.Enabled dc)
    (fail_if (bool_decide (DiscordConfig.WebhookURL dc = ""%string)
              && bool_decide (DiscordConfig.WebhookURLEnv dc = ""%string)) msg) = None
  ↔ discord_ok dc.
Proof. unfold discord_ok. by rewrite when_nil, one_of_two_nil. Qed.

Lemma slack_check_nil (sl : SlackConfig.t) msg :
  when (SlackConfig.Enabled sl)
    (fail_if (bool_decide (SlackConfig.WebhookURL sl = ""%string)
              && bool_decide (SlackConfig.WebhookURLEnv sl = ""%string)) msg) = None
  ↔ slack_ok sl.
Proof. unfold slack_ok. by rewrite when_nil, one_of_two_nil. Qed.

Lemma pagerduty_check_nil (pd : PagerDutyConfig.t) msg :
  when (PagerDutyConfig.Enabled pd)
    (fail_if (bool_decide (PagerDutyConfig.RoutingKey pd = ""%string)
              && bool_decide (PagerDutyConfig.RoutingKeyEnv pd = ""%string)) msg) = None
  ↔ pagerduty_ok pd.
Proof. unfold pagerduty_ok. by rewrite when_nil, one_of_two_nil. Qed.

Lemma telegram_check_nil (tg : TelegramConfig.t) m1 m2 m3 :
  when (TelegramConfig.Enabled tg)
    (fail_if (bool_decide (TelegramConfig.BotToken tg = ""%string)
              && bool_decide (TelegramConfig.BotTokenEnv tg = ""%string)) m1 ;;;
     fail_if (bool_decide (TelegramConfig.ChatID tg = ""%string)) m2 ;;;
     fail_if (bool_decide (TelegramConfig.ParseMode tg ≠ "HTML"%string)
              && bool_decide (TelegramConfig.ParseMode tg ≠ "Markdown"%string)
              && bool_decide (TelegramConfig.ParseMode tg ≠ "MarkdownV2"%string)) m3 ;;;
     None) = None
  ↔ telegram_ok tg.
Proof.
  unfold telegram_ok.
  rewrite when_nil, !seq_nil, one_of_two_nil, !fail_if_nil.
  rewrite !elem_of_cons, elem_of_nil.
  repeat case_bool_decide; naive_solver.
Qed.

Lemma NotificationConfig_Validate_nil (n : NotificationConfig.t) :
  NotificationConfig_Validate n = None ↔
  NotificationConfig.Enabled n = false ∨
  (discord_ok (NotificationConfig.Discord n) ∧
   telegram_ok (NotificationConfig.Telegram n) ∧
   slack_ok (NotificationConfig.Slack n) ∧
   pagerduty_ok (NotificationConfig.PagerDuty n)).
Proof.
  unfold NotificationConfig_Validate.
  destruct (NotificationConfig.Enabled n); simpl; [|naive_solver].
  rewrite seq_nil, discord_check_nil.
  rewrite seq_nil, telegram_check_nil.
  rewrite seq_nil, slack_check_nil.
  rewrite seq_nil, pagerduty_check_nil.
  naive_solver.
Qed.

(** [X14] [NotificationConfig.Validate] accepts every configuration whose
    notifications are switched off, whatever its services hold.
    Otherwise it accepts exactly when each enabled service names its
    secret, literally or by an environment variable, and Telegram also
    has a chat id and one of the parse modes HTML, Markdown and
    MarkdownV2.  Disabled services are not looked at.  After
    [SetDefaults] the parse mode may also have been left empty. *)
Theorem NotificationConfig_Validate_accepts_iff (n : NotificationConfig.t) :
  (NotificationConfig_Validate n = None ↔
   NotificationConfig.Enabled n = false ∨
   (discord_ok (NotificationConfig.Discord n) ∧
    telegram_ok (NotificationConfig.Telegram n) ∧
    slack_ok (NotificationConfig.Slack n) ∧
    pagerduty_ok (NotificationConfig.PagerDuty n))) ∧
  (NotificationConfig_Validate (NotificationConfig_SetDefaults n) = None ↔
   NotificationConfig.Enabled n = false ∨
   (discord_ok (NotificationConfig.Discord n) ∧
    (let tg := NotificationConfig.Telegram n in
     TelegramConfig.Enabled tg = true →
     (TelegramConfig.BotToken tg ≠ ""%string ∨ TelegramConfig.BotTokenEnv tg ≠ ""%string) ∧
     TelegramConfig.ChatID tg ≠ ""%string ∧
     TelegramConfig.ParseMode tg ∈ [""; "HTML"; "Markdown"; "MarkdownV2"]%string) ∧
    slack_ok (NotificationConfig.Slack n) ∧
    pagerduty_ok (NotificationConfig.PagerDuty n))).
Proof.
  split; [apply NotificationConfig_Validate_nil|].
  rewrite NotificationConfig_Validate_nil. simpl.
  unfold discord_ok, telegram_ok, slack_ok, pagerduty_ok, default_if_empty. simpl.
  rewrite !elem_of_cons, !elem_of_nil.
  destruct (decide (TelegramConfig.ParseMode (NotificationConfig.Telegram n) = ""%string))
    as [Hpm|Hpm].
  - rewrite (bool_decide_eq_true_2 _ Hpm), Hpm. naive_solver.
  - rewrite (bool_decide_eq_false_2 _ Hpm). naive_solver.
Qed.

Section secrets.
Variable Getenv : string → string.

Local Abbreviation ResolveSecrets := (NotificationConfig_ResolveSecrets Getenv).

Lemma resolve_cases n enabled secret env service store :
  (¬ reads_env enabled secret env ∧
   resolve Getenv n enabled secret env service store = (n, None)) ∨
  (reads_env enabled secret env ∧ Getenv env = ""%string ∧
   ∃ msg, resolve Getenv n enabled secret env service store = (n, Some msg)) ∨
  (reads_env enabled secret env ∧ Getenv env ≠ ""%string ∧
   resolve Getenv n enabled secret env service store
   = (store n (Getenv env), None)).
Proof.
  unfold resolve, reads_env.
  destruct enabled; simpl; [|left; naive_solver].
  repeat case_bool_decide; simpl; naive_solver.
Qed.

Lemma skip_has_secret enabled secret env :
  ¬ reads_env enabled secret env →
  (enabled = true → secret ≠ ""%string ∨ env ≠ ""%string) →
  enabled = true → secret ≠ ""%string.
Proof. unfold reads_env. intros Hskip Hok He Hs. destruct (Hok He); naive_solver. Qed.

Ltac resolve_step :=
  match goal with
  | |- context [resolve Getenv ?n ?e ?s ?v ?svc ?st] =>
      let H := fresh "Hskip" in
      let Hr := fresh "Hreads" in
      let Hg := fresh "Hgot" in
      let m := fresh "msg" in
      destruct (resolve_cases n e s v svc st)
        as [[H ->]|[(Hr & Hg & m & ->)|(Hr & Hg & ->)]];
      unfold and_then; simpl
  end.

Lemma resolved_secrets (n : NotificationConfig.t) :
  NotificationConfig_Validate n = None →
  (ResolveSecrets n).2 = None →
  let n' := (ResolveSecrets n).1 in
  NotificationConfig.Enabled n = true →
  (DiscordConfig.Enabled (NotificationConfig.Discord n') = true →
   DiscordConfig.WebhookURL (NotificationConfig.Discord n') ≠ ""%string) ∧
  (TelegramConfig.Enabled (NotificationConfig.Telegram n') = true →
   TelegramConfig.BotToken (NotificationConfig.Telegram n') ≠ ""%string ∧
   TelegramConfig.ChatID (NotificationConfig.Telegram n') ≠ ""%string) ∧
  (SlackConfig.Enabled (NotificationConfig.Slack n') = true →
   SlackConfig.WebhookURL (NotificationConfig.Slack n') ≠ ""%string) ∧
  (PagerDutyConfig.Enabled (NotificationConfig.PagerDuty n') = true →
   PagerDutyConfig.RoutingKey (NotificationConfig.PagerDuty n') ≠ ""%string).
Proof.
  intros Hvalid Hok n' Hen. subst n'. revert Hok.
  apply NotificationConfig_Validate_nil in Hvalid as [Hoff|(Hd & Ht & Hs & Hp)];
    [congruence|].
  unfold discord_ok, slack_ok, pagerduty_ok in *.
  assert (TelegramConfig.Enabled (NotificationConfig.Telegram n) = true →
          TelegramConfig.BotToken (NotificationConfig.Telegram n) ≠ ""%string
          ∨ TelegramConfig.BotTokenEnv (NotificationConfig.Telegram n) ≠ ""%string)
    as Ht1 by (intros He; apply (Ht He)).
  assert (TelegramConfig.Enabled (NotificationConfig.Telegram n) = true →
          TelegramConfig.ChatID (NotificationConfig.Telegram n) ≠ ""%string)
    as Ht2 by (intros He; apply (Ht He)).
  clear Ht.
  unfold NotificationConfig_ResolveSecrets. rewrite Hen. simpl.
  resolve_step; [|done|]; (resolve_step; [|done|]); (resolve_step; [|done|]);
    (resolve_step; [|done|]); intros _;
    (split; [|split; [|split]]); simpl; intros He; repeat split;
    eauto using skip_has_secret.
Qed.

(** No block of [ResolveSecrets] touches a switch. *)
Lemma resolved_switches (n : NotificationConfig.t) :
  let n' := (ResolveSecrets n).1 in
  NotificationConfig.Enabled n' = NotificationConfig.Enabled n ∧
  NotificationConfig.Events n' = NotificationConfig.Events n ∧
  DiscordConfig.Enabled (NotificationConfig.Discord n')
  = DiscordConfig.Enabled (NotificationConfig.Discord n) ∧
  TelegramConfig.Enabled (NotificationConfig.Telegram n')
  = TelegramConfig.Enabled (NotificationConfig.Telegram n) ∧
  SlackConfig.Enabled (NotificationConfig.Slack n')
  = SlackConfig.Enabled (NotificationConfig.Slack n) ∧
  PagerDutyConfig.Enabled (NotificationConfig.PagerDuty n')
  = PagerDutyConfig.Enabled (NotificationConfig.PagerDuty n).
Proof.
  cbv zeta. unfold NotificationConfig_ResolveSecrets.
  destruct (NotificationConfig.Enabled n) eqn:Hen; simpl; [|by rewrite Hen].
  resolve_step; [|by rewrite Hen|]; (resolve_step; [|by rewrite Hen|]);
    (resolve_step; [|by rewrite Hen|]); (resolve_step; [|by rewrite Hen|]);
    by rewrite Hen.
Qed.

(** [X15] On a configuration that [Validate] accepted, a successful
    [ResolveSecrets] leaves every enabled service with its secret:
    Discord and Slack with a webhook URL, Telegram with a bot token (and
    the chat id that validation demanded), PagerDuty with a routing
    key. *)
Theorem ResolveSecrets_supplies_every_secret (n : NotificationConfig.t) :
  NotificationConfig_Validate n = None →
  (ResolveSecrets n).2 = None →
  let n' := (ResolveSecrets n).1 in
  NotificationConfig.Enabled n = true →
  (DiscordConfig.Enabled (NotificationConfig.Discord n') = true →
   DiscordConfig.WebhookURL (NotificationConfig.Discord n') ≠ ""%string) ∧
  (TelegramConfig.Enabled (NotificationConfig.Telegram n') = true →
   TelegramConfig.BotToken (NotificationConfig.Telegram n') ≠ ""%string ∧
   TelegramConfig.ChatID (NotificationConfig.Telegram n') ≠ ""%string) ∧
  (SlackConfig.Enabled (NotificationConfig.Slack n') = true →
   SlackConfig.WebhookURL (NotificationConfig.Slack n') ≠ ""%string) ∧
  (PagerDutyConfig.Enabled (NotificationConfig.PagerDuty n') = true →
   PagerDutyConfig.RoutingKey (NotificationConfig.PagerDuty n') ≠ ""%string).
Proof. apply resolved_secrets. Qed.

Ltac resolve_leaf :=
  simpl in *;
  split; [unfold is_Some; naive_solver|];
  split; [done|];
  split; [unfold reads_env in *; naive_solver|];
  split; [unfold reads_env in *; naive_solver|];
  split; [unfold reads_env in *; naive_solver|];
  split; [unfold reads_env in *; naive_solver|];
  do 4 eexists;
  unfold set_PagerDuty_RoutingKey, set_Slack_WebhookURL, set_Telegram_BotToken,
    set_Discord_WebhookURL; simpl; reflexivity.

(** [X16] [ResolveSecrets] fails exactly when notifications are on and
    some service that has to read its secret from the environment
    (enabled, no literal secret, a variable named) finds the variable
    empty.  With notifications off it changes nothing.  In every case it
    changes at most the four secrets, and a secret that was given
    literally is kept: the environment is consulted only for an empty
    one. *)
Theorem ResolveSecrets_touches_only_empty_secrets (n : NotificationConfig.t) :
  let out := ResolveSecrets n in
  let dc := NotificationConfig.Discord n in
  let tg := NotificationConfig.Telegram n in
  let sl := NotificationConfig.Slack n in
  let pd := NotificationConfig.PagerDuty n in
  (is_Some out.2 ↔
   NotificationConfig.Enabled n = true ∧
   ((reads_env (DiscordConfig.Enabled dc) (DiscordConfig.WebhookURL dc)
       (DiscordConfig.WebhookURLEnv dc)
     ∧ Getenv (DiscordConfig.WebhookURLEnv dc) = ""%string) ∨
    (reads_env (TelegramConfig.Enabled tg) (TelegramConfig.BotToken tg)
       (TelegramConfig.BotTokenEnv tg)
     ∧ Getenv (TelegramConfig.BotTokenEnv tg) = ""%string) ∨
    (reads_env (SlackConfig.Enabled sl) (SlackConfig.WebhookURL sl)
       (SlackConfig.WebhookURLEnv sl)
     ∧ Getenv (SlackConfig.WebhookURLEnv sl) = ""%string) ∨
    (reads_env (PagerDutyConfig.Enabled pd) (PagerDutyConfig.RoutingKey pd)
       (PagerDutyConfig.RoutingKeyEnv pd)
     ∧ Getenv (PagerDutyConfig.RoutingKeyEnv pd) = ""%string))) ∧
  (NotificationConfig.Enabled n = false → out.1 = n) ∧
  (DiscordConfig.WebhookURL dc ≠ ""%string →
   DiscordConfig.WebhookURL (NotificationConfig.Discord out.1)
   = DiscordConfig.WebhookURL dc) ∧
  (TelegramConfig.BotToken tg ≠ ""%string →
   TelegramConfig.BotToken (NotificationConfig.Telegram out.1)
   = TelegramConfig.BotToken tg) ∧
  (SlackConfig.WebhookURL sl ≠ ""%string →
   SlackConfig.WebhookURL (NotificationConfig.Slack out.1)
   = SlackConfig.WebhookURL sl) ∧
  (PagerDutyConfig.RoutingKey pd ≠ ""%string →
   PagerDutyConfig.RoutingKey (NotificationConfig.PagerDuty out.1)
   = PagerDutyConfig.RoutingKey pd) ∧
  (∃ a b c d,
     out.1 = set_PagerDuty_RoutingKey
               (set_Slack_WebhookURL
                  (set_Telegram_BotToken (set_Discord_WebhookURL n a) b) c) d).
Proof.
  destruct n as [en [de du dv dn da] [te tt tv tc tp] [se su sv sc sn si]
                    [pe pk pv] ev].
  cbv zeta. unfold NotificationConfig_ResolveSecrets. simpl.
  destruct en; simpl.
  2:{ split; [unfold is_Some; naive_solver|]. repeat split; try done.
      do 4 eexists.
      unfold set_PagerDuty_RoutingKey, set_Slack_WebhookURL, set_Telegram_BotToken,
        set_Discord_WebhookURL; simpl; reflexivity. }
  resolve_step; [|resolve_leaf|]; (resolve_step; [|resolve_leaf|]);
    (resolve_step; [|resolve_leaf|]); (resolve_step; [|resolve_leaf|]);
    resolve_leaf.
Qed.

End secrets.

Lemma ResolveSecrets_supplies_every_secret_witness :
  NotificationConfig_Validate discord_by_env = None ∧
  (NotificationConfig_ResolveSecrets hook_env discord_by_env).2 = None ∧
  NotificationConfig.Enabled discord_by_env = true ∧
  (DiscordConfig.Enabled
     (NotificationConfig.Discord
        (NotificationConfig_ResolveSecrets hook_env discord_by_env).1) = true →
   DiscordConfig.WebhookURL
     (NotificationConfig.Discord
        (NotificationConfig_ResolveSecrets hook_env discord_by_env).1) ≠ ""%string).
Proof.
  split; [reflexivity|]. split; [reflexivity|]. split; [reflexivity|].
  apply (ResolveSecrets_supplies_every_secret hook_env discord_by_env);
    reflexivity.
Defined.

Example ResolveSecrets_discord_by_env :
  DiscordConfig.WebhookURL
    (NotificationConfig.Discord
       (NotificationConfig_ResolveSecrets hook_env discord_by_env).1)
  = "https://discord.example/hook"%string ∧
  NotificationConfig_ResolveSecrets (λ _, ""%string) discord_by_env
  = (discord_by_env,
     Some "notifications.discord: environment variable DISCORD_WEBHOOK is not set"%string).
Proof. by vm_compute. Qed.

End config_more.

(** ** More on the notification manager *)

Module notify_more.
Import notify scenarios notify_facts.

Lemma Notify_loop_same_event ctx event notifiers : ∀ now,
  Forall (λ e, e = event) (sent_events (Notify_loop ctx event now notifiers).2).
Proof.
  induction notifiers as [|n rest IH]; intros now; simpl; [constructor|].
  destruct (Notifier.IsEnabled n); simpl; [|apply IH].
  destruct (Notifier.Send n ctx event now) as [err took].
  specialize (IH (now + Z.of_N took)).
  destruct (Notify_loop ctx event (now + Z.of_N took) rest) as [finish effects].
  destruct err; simpl in *; by constructor.
Qed.

Lemma filter_all_enabled (l : list Notifier.t) :
  Forall (λ x, Notifier.IsEnabled x = true) l →
  filter (λ x, Notifier.IsEnabled x) l = l.
Proof.
  induction 1 as [|x l Hx Hl IH]; [done|].
  rewrite filter_cons, decide_True by (by rewrite Hx). by rewrite IH.
Qed.

Section manager.
Variable discord_post :
  DiscordNotifier.t → Context.t → Event.t → Time → config.error * N.
Variable telegram_post :
  TelegramNotifier.t → Context.t → Event.t → Time → config.error * N.
Variable slack_post :
  SlackNotifier.t → Context.t → Event.t → Time → config.error * N.
Variable pagerduty_post :
  PagerDutyNotifier.t → Context.t → Event.t → Time → config.error * N.

Local Abbreviation NewManager :=
  (notify.NewManager discord_post telegram_post slack_post pagerduty_post).

(** [X17] The manager that [NewManager] builds is enabled exactly when
    the configuration has a service enabled ([HasAnyEnabled]).  Its
    notifiers are one per enabled service, in the order discord,
    telegram, slack, pagerduty; with notifications off it has none. *)
Theorem NewManager_enabled_iff_HasAnyEnabled (opts : ManagerOptions.t) :
  let cfg := ManagerOptions.Config opts in
  let m := NewManager opts in
  Manager_IsEnabled m = config.NotificationConfig_HasAnyEnabled cfg ∧
  Manager.enabled m = config.NotificationConfig.Enabled cfg ∧
  Notifier.Name <$> Manager.notifiers m =
    (if config.NotificationConfig.Enabled cfg then
       (if config.DiscordConfig.Enabled (config.NotificationConfig.Discord cfg)
        then ["discord"%string] else [])
       ++ (if config.TelegramConfig.Enabled (config.NotificationConfig.Telegram cfg)
           then ["telegram"%string] else [])
       ++ (if config.SlackConfig.Enabled (config.NotificationConfig.Slack cfg)
           then ["slack"%string] else [])
       ++ (if config.PagerDutyConfig.Enabled (config.NotificationConfig.PagerDuty cfg)
           then ["pagerduty"%string] else [])
     else []).
Proof.
  cbv zeta. unfold notify.NewManager, Manager_IsEnabled,
    config.NotificationConfig_HasAnyEnabled.
  destruct (config.NotificationConfig.Enabled _); simpl; [|done].
  destruct (config.DiscordConfig.Enabled _),
           (config.TelegramConfig.Enabled _),
           (config.SlackConfig.Enabled _),
           (config.PagerDutyConfig.Enabled _); simpl; done.
Qed.

(** [X19] Event types outside the thirteen known ones always pass the
    filter, whatever the switches say.  And on a manager built from an
    enabled configuration to which [SetDefaults] was applied, every
    event type passes. *)
Theorem event_filter_defaults :
  (∀ (m : Manager.t) (eventType : EventType),
     eventType ∉ known_events → isEventEnabled m eventType = true) ∧
  (∀ (n : config.NotificationConfig.t) (name ip cluster : string)
     (eventType : EventType),
     config.NotificationConfig.Enabled n = true →
     isEventEnabled
       (NewManager (ManagerOptions.mk (config.NotificationConfig_SetDefaults n)
                      name ip cluster))
       eventType = true).
Proof.
  split.
  - intros m t Hnew. unfold isEventEnabled.
    repeat (case_bool_decide as Heq;
            [exfalso; apply Hnew; rewrite Heq; apply (bool_decide_unpack _);
             by vm_compute|clear Heq]).
    done.
  - intros n name ip cluster t Hen.
    unfold notify.NewManager. simpl. rewrite Hen. simpl.
    unfold isEventEnabled. simpl. repeat case_bool_decide; done.
Qed.

(** [X20] [Notify] does nothing at all on a disabled manager, and when
    the event's type is switched off it only writes one debug line: in
    both cases no sink is called, nothing is logged as failed and no
    time passes. *)
Theorem Notify_filtered_is_silent (m : Manager.t) (event : Event.t) (now : Time) :
  Manager.enabled m && isEventEnabled m (Event.Type_ event) = false →
  let out := Notify m event now in
  sends out.2 = [] ∧ logged_failures out.2 = [] ∧ out.1 = now ∧
  (Manager.enabled m = false → out.2 = []) ∧
  (Manager.enabled m = true →
   out.2 = [LogDebug "event type disabled, skipping notification"
              ["event"; Event.Type_ event]]).
Proof.
  intros Hoff. cbv zeta. unfold Notify.
  destruct (Manager.enabled m); simpl in *; [|done].
  rewrite Hoff. simpl. repeat split; try done.
Qed.

(** [X21] Every sink that [Notify] calls receives one and the same
    event: the caller's event, with the current time filled in as its
    timestamp when the caller left the timestamp zero, and unchanged
    otherwise. *)
Theorem Notify_hands_one_event_to_all (m : Manager.t) (event : Event.t) (now : Time) :
  let stamped :=
    if bool_decide (Event.Timestamp event = 0)
    then Event_set_Timestamp event now else event in
  Forall (λ e, e = stamped) (sent_events (Notify m event now).2) ∧
  Event_set_Timestamp stamped (Event.Timestamp event) = event ∧
  Event.Timestamp stamped
  = (if bool_decide (Event.Timestamp event = 0) then now else Event.Timestamp event).
Proof.
  cbv zeta. split; [|split].
  - unfold Notify.
    destruct (Manager.enabled m); simpl; [|constructor].
    destruct (isEventEnabled m (Event.Type_ event)); simpl; [|constructor].
    apply Notify_loop_same_event.
  - destruct event. unfold Event_set_Timestamp. simpl.
    case_bool_decide; done.
  - case_bool_decide; done.
Qed.

Variable Getenv : string → string.

(** [X18] Configured services are notified.  When [Validate] accepted
    the configuration and [ResolveSecrets] succeeded on it, every
    notifier of the manager built from the result is enabled, so that
    [Notify] calls [Send] on each of them, in order, for every event
    that passes the filter. *)
Theorem configured_services_are_notified
    (n : config.NotificationConfig.t) (name ip cluster : string) :
  config.NotificationConfig_Validate n = None →
  (config.NotificationConfig_ResolveSecrets Getenv n).2 = None →
  config.NotificationConfig.Enabled n = true →
  let m := NewManager
             (ManagerOptions.mk
                (config.NotificationConfig_ResolveSecrets Getenv n).1
                name ip cluster) in
  Forall (λ x, Notifier.IsEnabled x = true) (Manager.notifiers m) ∧
  (∀ event now, isEventEnabled m (Event.Type_ event) = true →
     Dispatch.to <$> sends (Notify m event now).2 = Manager.notifiers m).
Proof.
  intros Hvalid Hok Hen.
  destruct (config_more.resolved_secrets Getenv n Hvalid Hok Hen)
    as (Hd & Ht & Hs & Hp).
  destruct (config_more.resolved_switches Getenv n) as (Hen' & _).
  rewrite Hen in Hen'.
  set (n' := (config.NotificationConfig_ResolveSecrets Getenv n).1) in *.
  intros m.
  assert (Manager.enabled m = true) as Hm.
  { subst m. unfold notify.NewManager. simpl. by rewrite Hen'. }
  assert (Forall (λ x, Notifier.IsEnabled x = true) (Manager.notifiers m)) as Hall.
  { subst m. unfold notify.NewManager. simpl. rewrite Hen'. simpl.
    destruct (config.DiscordConfig.Enabled _) eqn:Hde,
             (config.TelegramConfig.Enabled _) eqn:Hte,
             (config.SlackConfig.Enabled _) eqn:Hse,
             (config.PagerDutyConfig.Enabled _) eqn:Hpe;
      simpl; repeat constructor; simpl;
      try (apply bool_decide_eq_true_2; auto);
      try (apply andb_true_intro; split; apply bool_decide_eq_true_2;
           by apply Ht). }
  split; [exact Hall|].
  intros event now Hev. unfold Notify. rewrite Hm, Hev. simpl.
  match goal with
  | |- context [Notify_loop ?c ?e now ?ns] =>
      destruct (Notify_loop_dispatches c e ns now) as (Hto & _)
  end.
  cbv zeta in Hto. rewrite Hto. by apply filter_all_enabled.
Qed.

End manager.

Lemma configured_services_are_notified_witness :
  config.NotificationConfig_Validate discord_by_env = None ∧
  (config.NotificationConfig_ResolveSecrets hook_env discord_by_env).2 = None ∧
  config.NotificationConfig.Enabled discord_by_env = true ∧
  Forall (λ x, Notifier.IsEnabled x = true)
    (Manager.notifiers
       (notify.NewManager (λ _ _ _ _, (None, 0%N)) (λ _ _ _ _, (None, 0%N))
          (λ _ _ _ _, (None, 0%N)) (λ _ _ _ _, (None, 0%N))
          (ManagerOptions.mk
             (config.NotificationConfig_ResolveSecrets hook_env discord_by_env).1
             "validator-1" "10.0.0.1" "mainnet-beta"))).
Proof.
  split; [reflexivity|]. split; [reflexivity|]. split; [reflexivity|].
  apply (configured_services_are_notified
           (λ _ _ _ _, (None, 0%N)) (λ _ _ _ _, (None, 0%N))
           (λ _ _ _ _, (None, 0%N)) (λ _ _ _ _, (None, 0%N))
           hook_env discord_by_env "validator-1" "10.0.0.1" "mainnet-beta");
    reflexivity.
Defined.

Lemma Notify_filtered_is_silent_witness :
  Manager.enabled no_startup && isEventEnabled no_startup (Event.Type_ started) = false ∧
  sends (Notify no_startup started 0).2 = [].
Proof.
  split; [reflexivity|].
  apply (Notify_filtered_is_silent no_startup started 0). reflexivity.
Defined.

End notify_more.

(** ** The messages of the sinks *)

Module sinks_more.
Import notify scenarios.

Lemma length_append (a b : string) :
  String.length (a +:+ b) = (String.length a + String.length b)%nat.
Proof. induction a as [|c a IH]; simpl; [done|]. by rewrite IH. Qed.

Lemma length_substring s : ∀ n m,
  (n + m ≤ String.length s)%nat → String.length (substring n m s) = m.
Proof.
  induction s as [|c s IH]; intros [|n] [|m] Hle; simpl in *; try done; try lia.
  - rewrite IH; [done|lia].
  - apply IH. lia.
  - apply IH. lia.
Qed.

Lemma substring_whole s : substring 0 (String.length s) s = s.
Proof. induction s as [|c s IH]; simpl; [done|]. by rewrite IH. Qed.

Lemma substring_append_l a b : substring 0 (String.length a) (a +:+ b) = a.
Proof.
  induction a as [|c a IH]; simpl; [by destruct b|]. by rewrite IH.
Qed.

Lemma substring_append_r a b n m :
  substring (String.length a + n) m (a +:+ b) = substring n m b.
Proof. induction a as [|c a IH]; simpl; done. Qed.

Lemma append_inj_r (a b c : string) : a +:+ b = a +:+ c → b = c.
Proof. induction a as [|x a IH]; simpl; [done|]. intros [= ?]. auto. Qed.

(** [X22] [truncatePubkey] returns keys of at most twelve bytes as they
    are, and shortens every longer key to exactly thirteen bytes: its
    first six, three dots, its last four.  In particular a key of
    thirteen bytes is altered without getting shorter. *)
Theorem truncatePubkey_shape (pubkey : string) :
  let short := truncatePubkey pubkey in
  String.length short = (String.length pubkey `min` 13)%nat ∧
  ((String.length pubkey ≤ 12)%nat → short = pubkey) ∧
  ((12 < String.length pubkey)%nat →
   substring 0 6 short = substring 0 6 pubkey ∧
   substring 6 3 short = "..."%string ∧
   substring 9 4 short = substring (String.length pubkey - 4) 4 pubkey).
Proof.
  cbv zeta. unfold truncatePubkey. case_bool_decide as Hlen.
  - split; [lia|]. split; [done|lia].
  - set (a := substring 0 6 pubkey).
    set (b := substring (String.length pubkey - 4) 4 pubkey).
    assert (String.length a = 6%nat) as Ha by (apply length_substring; lia).
    assert (String.length b = 4%nat) as Hb by (apply length_substring; lia).
    split; [|split; [lia|intros _; split; [|split]]].
    + rewrite !length_append, Ha, Hb. simpl. lia.
    + rewrite <- Ha at 1. apply substring_append_l.
    + replace 6%nat with (String.length a + 0)%nat by lia.
      rewrite substring_append_r.
      apply (substring_append_l "..." b).
    + replace 9%nat with (String.length a + 3)%nat by lia.
      rewrite substring_append_r.
      change 3%nat with (String.length "..." + 0)%nat.
      rewrite substring_append_r. rewrite <- Hb at 1. apply substring_whole.
Qed.

Example truncatePubkey_examples :
  truncatePubkey "7Np41oeYqPefeNQEHSv1UDhYrehxin3NStELsSKCT4K2"%string
    = "7Np41o...T4K2"%string ∧
  truncatePubkey "ABCDEFGHIJKLM"%string = "ABCDEF...JKLM"%string ∧
  truncatePubkey "ABCDEFGHIJKL"%string = "ABCDEFGHIJKL"%string.
Proof. by vm_compute. Qed.


(** [X24] A message supplied with the event replaces the generated text
    in every sink: the description of Discord, Telegram and Slack and the
    summary of PagerDuty are then the message itself. *)
Theorem message_overrides_generated_text (event : Event.t) :
  Event.Message event ≠ ""%string →
  Discord_getDescription event = Event.Message event ∧
  Telegram_getDescription event = Event.Message event ∧
  Slack_getDescription event = Event.Message event ∧
  PagerDuty_getSummary event = Event.Message event.
Proof.
  intros Hmsg.
  unfold Discord_getDescription, Telegram_getDescription, Slack_getDescription,
    PagerDuty_getSummary.
  by rewrite !bool_decide_eq_true_2.
Qed.

Lemma message_overrides_generated_text_witness :
  Event.Message peer_lost ≠ ""%string ∧
  PagerDuty_getSummary peer_lost = Event.Message peer_lost.
Proof.
  split; [done|]. by apply (message_overrides_generated_text peer_lost).
Defined.

(** [X25] PagerDuty only ever receives one of its four severity names,
    whatever severity string the event carries; and the default severity
    of every event type is one of these names and is passed on as it
    is. *)
Theorem PagerDuty_severity_is_admissible (severity : Severity) (eventType : EventType) :
  PagerDuty_getSeverity severity ∈ ["critical"; "error"; "warning"; "info"]%string ∧
  GetDefaultSeverity eventType ∈ ["critical"; "error"; "warning"; "info"]%string ∧
  PagerDuty_getSeverity (GetDefaultSeverity eventType) = GetDefaultSeverity eventType.
Proof.
  rewrite !elem_of_cons. split; [|split].
  - unfold PagerDuty_getSeverity, switch. repeat case_bool_decide; auto 10.
  - unfold GetDefaultSeverity, switch. repeat case_bool_decide; auto 10.
  - unfold GetDefaultSeverity, switch. repeat case_bool_decide; done.
Qed.

Lemma foldl_insert_union (visit : list (string * string)) :
  ∀ base : gmap string string,
  NoDup visit.*1 →
  foldl (λ m kv, <[kv.1 := kv.2]> m) base visit = list_to_map visit ∪ base.
Proof.
  induction visit as [|[k v] rest IH]; intros base Hnd; simpl.
  - by rewrite (left_id_L ∅ (∪)).
  - apply NoDup_cons in Hnd as [Hk Hnd]. rewrite IH by done.
    rewrite <- insert_union_l.
    rewrite <- insert_union_r; [done|].
    by apply not_elem_of_list_to_map_1.
Qed.

Lemma foldl_snoc_fmap {A B} (f : A → B) (visit : list A) : ∀ base : list B,
  foldl (λ acc x, acc ++ [f x]) base visit = base ++ (f <$> visit).
Proof.
  induction visit as [|x rest IH]; intros base; simpl.
  - by rewrite app_nil_r.
  - by rewrite IH, <- app_assoc.
Qed.

(** [X26] PagerDuty's deduplication keys pair a recovery with its alert
    only for health and gossip: for one validator, [health_unhealthy] and
    [health_recovered] share a key, and so do [gossip_lost] and
    [gossip_recovered], whatever the timestamps.  The resolve that
    [became_passive] sends, however, never carries the key of a trigger
    sent for [becoming_active] or [became_active]. *)
Theorem PagerDuty_dedup_keys_pairing (e1 e2 : Event.t) :
  Event.ValidatorName e1 = Event.ValidatorName e2 →
  (Event.Type_ e1 ∈ [EventHealthUnhealthy; EventHealthRecovered] →
   Event.Type_ e2 ∈ [EventHealthUnhealthy; EventHealthRecovered] →
   PagerDuty_getDedupKey e1 = PagerDuty_getDedupKey e2) ∧
  (Event.Type_ e1 ∈ [EventGossipLost; EventGossipRecovered] →
   Event.Type_ e2 ∈ [EventGossipLost; EventGossipRecovered] →
   PagerDuty_getDedupKey e1 = PagerDuty_getDedupKey e2) ∧
  (Event.Type_ e1 ∈ [EventBecomingActive; EventBecameActive] →
   Event.Type_ e2 = EventBecamePassive →
   PagerDuty_eventAction e1 = "trigger"%string ∧
   PagerDuty_eventAction e2 = "resolve"%string ∧
   PagerDuty_getDedupKey e1 ≠ PagerDuty_getDedupKey e2).
Proof.
  intros Hname. unfold PagerDuty_getDedupKey, PagerDuty_eventAction.
  rewrite Hname.
  generalize (pretty (Time_Unix (Event.Timestamp e1))).
  generalize (pretty (Time_Unix (Event.Timestamp e2))).
  intros u2 u1. rewrite !elem_of_cons, !elem_of_nil.
  split; [|split].
  - intros [->|[->|[]]] [->|[->|[]]]; reflexivity.
  - intros [->|[->|[]]] [->|[->|[]]]; reflexivity.
  - intros [->|[->|[]]] ->; (split; [reflexivity|split; [reflexivity|]]);
      simpl; intros Heq; apply append_inj_r in Heq; discriminate Heq.
Qed.

Lemma PagerDuty_dedup_keys_pairing_witness :
  Event.ValidatorName health_alert = Event.ValidatorName health_back ∧
  PagerDuty_getDedupKey health_alert = PagerDuty_getDedupKey health_back.
Proof.
  split; [reflexivity|].
  destruct (PagerDuty_dedup_keys_pairing health_alert health_back eq_refl)
    as (Hhealth & _).
  apply Hhealth; apply (bool_decide_unpack _); by vm_compute.
Defined.





End sinks_more.
